(** * dbusext: the signal dispatch loop of a systemd D-Bus connection

    A shallow embedding of [subscription.go] and of the parts of
    [connection.go] it relies on: the [Conn] fields shared between the
    dispatch goroutine and its callers, the Go channels they point to, the
    body of the [dispatch] loop, and the subscriber operations. *)

From stdpp Require Import gmap strings list fin_maps pretty.

Open Scope string_scope.
Open Scope list_scope.
Open Scope nat_scope.

(** ** Values carried by the bus *)

(** [dbus.ObjectPath] is a named string type. *)
Definition ObjectPath := string.

(** An [interface{}] found in a signal body or in a property map.  A type
    assertion [v.(string)] succeeds on [VString] only, [v.(bool)] on [VBool]
    only. *)
Inductive Value :=
| VString (s : string)
| VBool (b : bool)
| VUint32 (n : N)
| VObjectPath (p : ObjectPath)
| VOther.

(** [dbus.Signal]. *)
Record Signal := mkSignal {
  Sender : string;
  Path : ObjectPath;
  Name : string;
  Body : list Value
}.

(** Go's [error] values met by the dispatch loop: the ones built by
    [errors.New] and the ones returned by a failed bus call. *)
Inductive error :=
| errors_New (msg : string)
| bus_error (msg : string).

(** ** Panics

    Indexing a slice out of range and a failed type assertion panic.  A
    panic in the dispatch goroutine is modelled by [Panic]. *)
Inductive Result (A : Type) :=
| Ok (a : A)
| Panic.
Arguments Ok {A} a.
Arguments Panic {A}.

Definition bind {A B} (r : Result A) (k : A -> Result B) : Result B :=
  match r with
  | Ok a => k a
  | Panic => Panic
  end.

Notation "'let!' x ':=' r 'in' k" := (bind r (fun x => k))
  (at level 10, x name, r at level 100, k at level 200).

(** [s[i].(string)] for a slice, [m[k].(string)] for a map: the argument is
    the outcome of the lookup. *)
Definition assert_string (v : option Value) : Result string :=
  match v with
  | Some (VString s) => Ok s
  | _ => Panic
  end.

(** [s[i].(bool)]. *)
Definition assert_bool (v : option Value) : Result bool :=
  match v with
  | Some (VBool b) => Ok b
  | _ => Panic
  end.

(** ** Channels

    The state of a Go channel as its senders see it: the capacity given to
    [make], the buffered values, the number of receivers parked on it, and
    the values already handed to a parked receiver.  The channels a
    subscriber hands to the connection are taken to be open. *)
Record chan (A : Type) := mkChan {
  ch_cap : nat;
  ch_buf : list A;
  ch_recvq : nat;
  ch_handed : list A
}.
Arguments mkChan {A} _ _ _ _.
Arguments ch_cap {A} _.
Arguments ch_buf {A} _.
Arguments ch_recvq {A} _.
Arguments ch_handed {A} _.

(** [make(chan A, n)]. *)
Definition make_chan {A} (n : nat) : chan A := mkChan n [] 0 [].

(** Every value the channel has accepted and that was not taken out of its
    buffer. *)
Definition received {A} (c : chan A) : list A := ch_handed c ++ ch_buf c.

(** One send that can proceed.  Receivers park on an empty buffer only: if
    one is parked the value is handed to it, otherwise the value goes to the
    end of the buffer when there is room.  [None] when the send would
    block. *)
Definition try_send {A} (c : chan A) (v : A) : option (chan A) :=
  match ch_recvq c, ch_buf c with
  | S n, [] => Some (mkChan (ch_cap c) [] n (ch_handed c ++ [v]))
  | _, buf =>
      if length buf <? ch_cap c
      then Some (mkChan (ch_cap c) (buf ++ [v]) (ch_recvq c) (ch_handed c))
      else None
  end.

(** A channel value is a reference into a store of channels; [None] is the
    nil channel. *)
Definition ref := nat.

(** [select { case ch <- v: default: }].  The result is the store after the
    send, or [None] when the [default] branch is taken: a nil channel is
    never ready, nor is one whose send would block. *)
Definition select_send {A} (h : gmap ref (chan A)) (ch : option ref) (v : A)
  : option (gmap ref (chan A)) :=
  match ch with
  | None => None
  | Some r =>
      match h !! r with
      | None => None
      | Some c =>
          match try_send c v with
          | Some c' => Some (<[r := c']> h)
          | None => None
          end
      end
  end.

(** ** The connection *)

Record SubStateUpdate := mkSubStateUpdate {
  UnitName : string;
  SubState : string;
  FileState : string
}.

(** The [subscriber] field of [Conn], without its mutex. *)
Record Subscriber := mkSubscriber {
  updateCh : option ref;
  errCh : option ref;
  reloadCh : option ref
}.

(** The channels of each element type that exist in the program. *)
Record Store := mkStore {
  updateChans : gmap ref (chan SubStateUpdate);
  errChans : gmap ref (chan error);
  reloadChans : gmap ref (chan bool);
  jobChans : gmap ref (chan string)
}.

(** What the dispatch goroutine can reach from a [*Conn]: the job map of
    [jobListener], the [subscriber] fields, and the channels. *)
Record World := mkWorld {
  jobs : gmap ObjectPath ref;
  subscriber : Subscriber;
  store : Store
}.

Definition set_jobs (w : World) (j : gmap ObjectPath ref) : World :=
  mkWorld j (subscriber w) (store w).
Definition set_subscriber (w : World) (s : Subscriber) : World :=
  mkWorld (jobs w) s (store w).
Definition set_updateChans (w : World) (h : gmap ref (chan SubStateUpdate)) : World :=
  mkWorld (jobs w) (subscriber w)
    (mkStore h (errChans (store w)) (reloadChans (store w)) (jobChans (store w))).
Definition set_errChans (w : World) (h : gmap ref (chan error)) : World :=
  mkWorld (jobs w) (subscriber w)
    (mkStore (updateChans (store w)) h (reloadChans (store w)) (jobChans (store w))).
Definition set_reloadChans (w : World) (h : gmap ref (chan bool)) : World :=
  mkWorld (jobs w) (subscriber w)
    (mkStore (updateChans (store w)) (errChans (store w)) h (jobChans (store w))).
Definition set_jobChans (w : World) (h : gmap ref (chan string)) : World :=
  mkWorld (jobs w) (subscriber w)
    (mkStore (updateChans (store w)) (errChans (store w)) (reloadChans (store w)) h).

(** ** The bus

    The answers of systemd to the calls the dispatch goroutine makes while
    it handles one signal.  [GetUnit] is the outcome of
    [Call("org.freedesktop.systemd1.Manager.GetUnit", 0, name).Store(&p)]:
    [None] when the call or the store fails.  The two other entries are the
    methods [GetUnitPropertiesFromObjectPath] and [GetUnitFileState] of
    [Conn], which are not among the sources and are taken by their
    signatures. *)
Inductive Reply (A : Type) :=
| Success (a : A)
| Failure (err : error).
Arguments Success {A} a.
Arguments Failure {A} err.

Record Bus := mkBus {
  GetUnit : string -> option ObjectPath;
  GetUnitPropertiesFromObjectPath : ObjectPath -> Reply (gmap string Value);
  GetUnitFileState : string -> string
}.

(** ** Subscriber operations ([subscription.go]) *)

Definition SetSubStateSubscriber (w : World) (u e r : option ref) : World :=
  set_subscriber w (mkSubscriber u e r).

Definition RemoveSubStateSubscriber (w : World) : World :=
  set_subscriber w (mkSubscriber None None (reloadCh (subscriber w))).

Definition sendSubStateReload (w : World) : World :=
  match select_send (reloadChans (store w)) (reloadCh (subscriber w)) true with
  | Some h => set_reloadChans w h
  | None => w
  end.

Definition sendSubStateUpdate (bus : Bus) (w : World) (path : ObjectPath)
  : Result World :=
  match GetUnitPropertiesFromObjectPath bus path with
  | Failure err =>
      match select_send (errChans (store w)) (errCh (subscriber w)) err with
      | Some h => Ok (set_errChans w h)
      | None => Ok w
      end
  | Success unitProps =>
      let! substate := assert_string (unitProps !! "SubState") in
      let! unitName := assert_string (unitProps !! "Id") in
      let fileState := GetUnitFileState bus unitName in
      let update := mkSubStateUpdate unitName substate fileState in
      match select_send (updateChans (store w)) (updateCh (subscriber w)) update with
      | Some h => Ok (set_updateChans w h)
      | None =>
          match select_send (errChans (store w)) (errCh (subscriber w))
                  (errors_New "update channel full") with
          | Some h => Ok (set_errChans w h)
          | None => Ok w
          end
      end
  end.

(** ** The dispatch loop ([subscription.go], [dispatch]) *)

Definition JobRemoved := "org.freedesktop.systemd1.Manager.JobRemoved".
Definition PropertiesChanged := "org.freedesktop.DBus.Properties.PropertiesChanged".
Definition Reloading := "org.freedesktop.systemd1.Manager.Reloading".
Definition UnitFilesChanged := "org.freedesktop.systemd1.Manager.UnitFilesChanged".
Definition UnitInterface := "org.freedesktop.systemd1.Unit".

(** The two variables the goroutine declares before its [for]. *)
Record LoopVars := mkLoopVars {
  reloadState : bool;
  unitFilesChanged : bool
}.

Definition loop_start : LoopVars := mkLoopVars false false.

(** How the [switch] is left: by [continue], or by reaching the statement
    after it with the value of [unitPath]. *)
Inductive Flow :=
| Continue
| Fallthrough (unitPath : ObjectPath).

Section Dispatch.

(** Modelled from the spec: the result field of a completion notification.
    The spec names it ("the notification's result field (a status string)")
    without saying where in the notification it is found. *)
Variable job_result : Signal -> string.

(** Modelled from the spec: [watchJob], which is not among the sources.  It
    registers interest in the correlation path and returns the channel the
    caller waits on, a one-shot delivery target; a second registration for
    the same path is last-write-wins. *)
Definition watchJob (w : World) (p : ObjectPath) : World * ref :=
  let r := fresh (dom (jobChans (store w))) in
  (set_jobs (set_jobChans w (<[r := make_chan 1]> (jobChans (store w))))
     (<[p := r]> (jobs w)),
   r).

(** Modelled from the spec: [jobComplete], which [dispatch] calls and which
    is not among the sources.  The registry looks up the notification's
    origin path; if a job waits there, the result field is delivered to its
    channel and the entry is removed; otherwise the notification is
    discarded for this purpose.  The hand-off never blocks. *)
Definition jobComplete (w : World) (signal : Signal) : World :=
  match jobs w !! Path signal with
  | Some out =>
      let w' :=
        match select_send (jobChans (store w)) (Some out) (job_result signal) with
        | Some h => set_jobChans w h
        | None => w
        end in
      set_jobs w' (delete (Path signal) (jobs w'))
  | None => w
  end.

(** The [switch signal.Name] of the loop body. *)
Definition dispatch_switch (bus : Bus) (w : World) (l : LoopVars) (signal : Signal)
  : Result (World * LoopVars * Flow) :=
  if String.eqb (Name signal) JobRemoved then
    let! name := assert_string (Body signal !! 2) in
    Ok (w, l, Fallthrough (default "" (GetUnit bus name)))
  else if String.eqb (Name signal) PropertiesChanged then
    let! iface := assert_string (Body signal !! 0) in
    Ok (w, l, Fallthrough (if String.eqb iface UnitInterface then Path signal else ""))
  else if String.eqb (Name signal) Reloading then
    let! b := assert_bool (Body signal !! 0) in
    if unitFilesChanged l && negb b
    then Ok (sendSubStateReload w, mkLoopVars b false, Continue)
    else Ok (w, mkLoopVars b (unitFilesChanged l), Fallthrough "")
  else if String.eqb (Name signal) UnitFilesChanged then
    Ok (w, mkLoopVars (reloadState l) true, Continue)
  else
    Ok (w, l, Fallthrough "").

(** One turn of the [for] with a signal received. *)
Definition dispatch_iter (bus : Bus) (w : World) (l : LoopVars) (signal : Signal)
  : Result (World * LoopVars) :=
  let w := if String.eqb (Name signal) JobRemoved then jobComplete w signal else w in
  match updateCh (subscriber w) with
  | None => Ok (w, l)
  | Some _ =>
      let! sw := dispatch_switch bus w l signal in
      match sw with
      | (w, l, Continue) => Ok (w, l)
      | (w, l, Fallthrough unitPath) =>
          if String.eqb unitPath "" then Ok (w, l)
          else
            let! w := sendSubStateUpdate bus w unitPath in
            Ok (w, l)
      end
  end.

(** The queue [ch] as the goroutine meets it: the signals it will receive,
    each with the answers the bus gives while it is handled, and whether the
    transport closes the queue after them.  The capacity [signalBuffer]
    bounds how far the transport runs ahead and plays no part on the
    receiving side. *)
Record SignalQueue := mkSignalQueue {
  q_pending : list (Bus * Signal);
  q_closed : bool
}.

(** How the goroutine ends up: it returned, it is parked on the receive of
    an empty open queue, or it panicked. *)
Inductive Exit :=
| Returned (w : World) (l : LoopVars)
| Parked (w : World) (l : LoopVars)
| Crashed.

Fixpoint dispatch_loop (pending : list (Bus * Signal)) (closed : bool)
    (w : World) (l : LoopVars) : Exit :=
  match pending with
  | [] => if closed then Returned w l else Parked w l
  | (bus, signal) :: rest =>
      match dispatch_iter bus w l signal with
      | Ok (w', l') => dispatch_loop rest closed w' l'
      | Panic => Crashed
      end
  end.

Definition dispatch (q : SignalQueue) (w : World) : Exit :=
  dispatch_loop (q_pending q) (q_closed q) w loop_start.

(** The state after the signals of [pending] have been handled in order. *)
Fixpoint iterate (pending : list (Bus * Signal)) (w : World) (l : LoopVars)
  : Result (World * LoopVars) :=
  match pending with
  | [] => Ok (w, l)
  | (bus, signal) :: rest =>
      let! wl := dispatch_iter bus w l signal in
      iterate rest (fst wl) (snd wl)
  end.

End Dispatch.

(** ** The subscriber mutex

    [SetSubStateSubscriber] runs on its caller's goroutine while the
    dispatch goroutine may be inside [sendSubStateUpdate].  Both take
    [c.subscriber.Lock()] first and release it by a deferred [Unlock].  The
    two goroutines are modelled by their program points between those
    statements, and a run by the order in which a scheduler lets them take
    one statement each. *)

(** Program points of [sendSubStateUpdate], with the locals alive there. *)
Inductive DeliverPc :=
| D_Lock                                    (* c.subscriber.Lock() *)
| D_Fetch                                   (* unitProps, err := c.GetUnitProperties... *)
| D_SendErr (err : error)                   (* select { case c.subscriber.errCh <- err: ... } *)
| D_Props (unitProps : gmap string Value)   (* substate, unitName, fileState, update *)
| D_SendUpdate (update : SubStateUpdate)    (* select { case c.subscriber.updateCh <- update: *)
| D_SendFull                                (* default: select { case c.subscriber.errCh <- ... } *)
| D_Unlock                                  (* deferred c.subscriber.Unlock() *)
| D_Done
| D_Crashed.

(** Program points of [SetSubStateSubscriber]. *)
Inductive SetPc :=
| S_Lock
| S_UpdateCh
| S_ErrCh
| S_ReloadCh
| S_Unlock
| S_Done.

Record Conc := mkConc {
  c_world : World;
  c_locked : bool;
  c_deliver : DeliverPc;
  c_set : SetPc
}.

Inductive Tid := Deliverer | Setter.

Section Interleaving.

Variable bus : Bus.
(** The argument of [sendSubStateUpdate]. *)
Variable path : ObjectPath.
(** The arguments of [SetSubStateSubscriber]. *)
Variables new_updateCh new_errCh new_reloadCh : option ref.

(** One statement of [sendSubStateUpdate].  A goroutine that waits for the
    mutex, or that has returned, does not move. *)
Definition deliver_step (c : Conc) : Conc :=
  let w := c_world c in
  match c_deliver c with
  | D_Lock =>
      if c_locked c then c
      else mkConc w true D_Fetch (c_set c)
  | D_Fetch =>
      match GetUnitPropertiesFromObjectPath bus path with
      | Failure err => mkConc w (c_locked c) (D_SendErr err) (c_set c)
      | Success unitProps => mkConc w (c_locked c) (D_Props unitProps) (c_set c)
      end
  | D_SendErr err =>
      match select_send (errChans (store w)) (errCh (subscriber w)) err with
      | Some h => mkConc (set_errChans w h) (c_locked c) D_Unlock (c_set c)
      | None => mkConc w (c_locked c) D_Unlock (c_set c)
      end
  | D_Props unitProps =>
      match
        (let! substate := assert_string (unitProps !! "SubState") in
         let! unitName := assert_string (unitProps !! "Id") in
         Ok (mkSubStateUpdate unitName substate (GetUnitFileState bus unitName)))
      with
      | Ok update => mkConc w (c_locked c) (D_SendUpdate update) (c_set c)
      | Panic => mkConc w (c_locked c) D_Crashed (c_set c)
      end
  | D_SendUpdate update =>
      match select_send (updateChans (store w)) (updateCh (subscriber w)) update with
      | Some h => mkConc (set_updateChans w h) (c_locked c) D_Unlock (c_set c)
      | None => mkConc w (c_locked c) D_SendFull (c_set c)
      end
  | D_SendFull =>
      match select_send (errChans (store w)) (errCh (subscriber w))
              (errors_New "update channel full") with
      | Some h => mkConc (set_errChans w h) (c_locked c) D_Unlock (c_set c)
      | None => mkConc w (c_locked c) D_Unlock (c_set c)
      end
  | D_Unlock => mkConc w false D_Done (c_set c)
  | D_Done => c
  | D_Crashed => c
  end.

(** One statement of [SetSubStateSubscriber]. *)
Definition set_step (c : Conc) : Conc :=
  let w := c_world c in
  let s := subscriber w in
  match c_set c with
  | S_Lock =>
      if c_locked c then c
      else mkConc w true (c_deliver c) S_UpdateCh
  | S_UpdateCh =>
      mkConc (set_subscriber w (mkSubscriber new_updateCh (errCh s) (reloadCh s)))
        (c_locked c) (c_deliver c) S_ErrCh
  | S_ErrCh =>
      mkConc (set_subscriber w (mkSubscriber (updateCh s) new_errCh (reloadCh s)))
        (c_locked c) (c_deliver c) S_ReloadCh
  | S_ReloadCh =>
      mkConc (set_subscriber w (mkSubscriber (updateCh s) (errCh s) new_reloadCh))
        (c_locked c) (c_deliver c) S_Unlock
  | S_Unlock => mkConc w false (c_deliver c) S_Done
  | S_Done => c
  end.

(** A panic of the dispatch goroutine ends the program. *)
Definition step (t : Tid) (c : Conc) : Conc :=
  match c_deliver c with
  | D_Crashed => c
  | _ =>
      match t with
      | Deliverer => deliver_step c
      | Setter => set_step c
      end
  end.

Fixpoint exec (sched : list Tid) (c : Conc) : Conc :=
  match sched with
  | [] => c
  | t :: sched => exec sched (step t c)
  end.

(** What is left of [sendSubStateUpdate] from a program point, run without
    interruption. *)
Definition deliver_rest (pc : DeliverPc) (w : World) : Result World :=
  match pc with
  | D_Lock | D_Fetch => sendSubStateUpdate bus w path
  | D_SendErr err =>
      match select_send (errChans (store w)) (errCh (subscriber w)) err with
      | Some h => Ok (set_errChans w h)
      | None => Ok w
      end
  | D_Props unitProps =>
      let! substate := assert_string (unitProps !! "SubState") in
      let! unitName := assert_string (unitProps !! "Id") in
      let update := mkSubStateUpdate unitName substate (GetUnitFileState bus unitName) in
      match select_send (updateChans (store w)) (updateCh (subscriber w)) update with
      | Some h => Ok (set_updateChans w h)
      | None =>
          match select_send (errChans (store w)) (errCh (subscriber w))
                  (errors_New "update channel full") with
          | Some h => Ok (set_errChans w h)
          | None => Ok w
          end
      end
  | D_SendUpdate update =>
      match select_send (updateChans (store w)) (updateCh (subscriber w)) update with
      | Some h => Ok (set_updateChans w h)
      | None =>
          match select_send (errChans (store w)) (errCh (subscriber w))
                  (errors_New "update channel full") with
          | Some h => Ok (set_errChans w h)
          | None => Ok w
          end
      end
  | D_SendFull =>
      match select_send (errChans (store w)) (errCh (subscriber w))
              (errors_New "update channel full") with
      | Some h => Ok (set_errChans w h)
      | None => Ok w
      end
  | D_Unlock | D_Done => Ok w
  | D_Crashed => Panic
  end.

End Interleaving.

(** ** Vocabulary of the statements *)

(** The number of sends a channel takes before one would block, if nobody
    receives in between. *)
Definition room {A} (c : chan A) : nat :=
  match ch_recvq c, ch_buf c with
  | S n, [] => S n + ch_cap c
  | _, buf => ch_cap c - length buf
  end.

(** The channel is present and a send on it would proceed.  A channel is
    "absent or full" when [ready] is [false]. *)
Definition ready {A} (h : gmap ref (chan A)) (ch : option ref) : bool :=
  match ch with
  | None => false
  | Some r =>
      match h !! r with
      | None => false
      | Some c => bool_decide (0 < room c)
      end
  end.

(** [h'] is [h] after channel [ch] has received the one value [v]. *)
Definition delivered {A} (h : gmap ref (chan A)) (ch : option ref) (v : A)
    (h' : gmap ref (chan A)) : Prop :=
  exists r c c',
    ch = Some r /\ h !! r = Some c /\ h' = <[r := c']> h /\
    ch_cap c' = ch_cap c /\ received c' = received c ++ [v].

Definition is_string (v : option Value) : bool :=
  match v with
  | Some (VString _) => true
  | _ => false
  end.

Definition is_bool (v : option Value) : bool :=
  match v with
  | Some (VBool _) => true
  | _ => false
  end.

(** A property map that the bus returns for [path] has the two string
    entries [sendSubStateUpdate] asserts. *)
Definition fetch_ok (bus : Bus) (path : ObjectPath) : bool :=
  match GetUnitPropertiesFromObjectPath bus path with
  | Failure _ => true
  | Success unitProps =>
      is_string (unitProps !! "SubState") && is_string (unitProps !! "Id")
  end.

(** The signal and the answers of the bus have the types the loop body
    asserts on the way it takes for this signal. *)
Definition well_typed (bus : Bus) (signal : Signal) : bool :=
  if String.eqb (Name signal) JobRemoved then
    match Body signal !! 2 with
    | Some (VString name) =>
        let p := default "" (GetUnit bus name) in
        String.eqb p "" || fetch_ok bus p
    | _ => false
    end
  else if String.eqb (Name signal) PropertiesChanged then
    match Body signal !! 0 with
    | Some (VString iface) =>
        negb (String.eqb iface UnitInterface)
        || String.eqb (Path signal) "" || fetch_ok bus (Path signal)
    | _ => false
    end
  else if String.eqb (Name signal) Reloading then
    is_bool (Body signal !! 0)
  else true.

(** A notification for which a subscribed loop calls [sendSubStateUpdate]:
    a unit's [PropertiesChanged], or a [JobRemoved] whose unit is found. *)
Definition qualifying (bs : Bus * Signal) : bool :=
  let (bus, signal) := bs in
  if String.eqb (Name signal) JobRemoved then
    match Body signal !! 2 with
    | Some (VString name) =>
        match GetUnit bus name with
        | Some p => negb (String.eqb p "") && fetch_ok bus p
        | None => false
        end
    | _ => false
    end
  else if String.eqb (Name signal) PropertiesChanged then
    match Body signal !! 0 with
    | Some (VString iface) =>
        String.eqb iface UnitInterface
        && negb (String.eqb (Path signal) "") && fetch_ok bus (Path signal)
    | _ => false
    end
  else false.

(** The world the loop body works on once [jobComplete] has had its turn. *)
Definition after_jobComplete (job_result : Signal -> string) (w : World)
    (signal : Signal) : World :=
  if String.eqb (Name signal) JobRemoved then jobComplete job_result w signal else w.


(** A [Reloading] signal carrying [b], a [UnitFilesChanged] signal. *)
Definition is_Reloading (b : bool) (signal : Signal) : Prop :=
  Name signal = Reloading /\ Body signal !! 0 = Some (VBool b).

Definition is_UnitFilesChanged (signal : Signal) : Prop :=
  Name signal = UnitFilesChanged.

(** The statements [sendSubStateUpdate] has yet to run from a program
    point, at most. *)
Definition steps_left (pc : DeliverPc) : nat :=
  match pc with
  | D_Lock => 6
  | D_Fetch => 5
  | D_Props _ => 4
  | D_SendUpdate _ => 3
  | D_SendErr _ => 2
  | D_SendFull => 2
  | D_Unlock => 1
  | D_Done => 0
  | D_Crashed => 0
  end.

(** The turns a schedule gives to the dispatch goroutine. *)
Fixpoint deliver_turns (sched : list Tid) : nat :=
  match sched with
  | [] => 0
  | Deliverer :: sched => S (deliver_turns sched)
  | Setter :: sched => deliver_turns sched
  end.

(** The delivery holds the mutex, or is over, and what it does to the
    channels adds up to [target]. *)
Definition delivering (bus : Bus) (path : ObjectPath) (target : Result World)
    (c : Conc) : Prop :=
  match c_deliver c with
  | D_Lock => False
  | D_Done =>
      exists w1, target = Ok w1 /\ store (c_world c) = store w1 /\
                 jobs (c_world c) = jobs w1
  | D_Crashed => target = Panic
  | pc =>
      c_locked c = true /\ (c_set c = S_Lock \/ c_set c = S_Done) /\
      deliver_rest bus path pc (c_world c) = target
  end.

(** The delivery waits for the mutex while [SetSubStateSubscriber] is
    somewhere between its first and its last statement. *)
Definition setting (w : World) (u e r : option ref) (c : Conc) : Prop :=
  c_deliver c = D_Lock /\
  jobs (c_world c) = jobs w /\ store (c_world c) = store w /\
  match c_set c with
  | S_Lock => c_locked c = false /\ subscriber (c_world c) = subscriber w
  | S_UpdateCh => c_locked c = true /\ subscriber (c_world c) = subscriber w
  | S_ErrCh =>
      c_locked c = true /\
      subscriber (c_world c)
      = mkSubscriber u (errCh (subscriber w)) (reloadCh (subscriber w))
  | S_ReloadCh =>
      c_locked c = true /\
      subscriber (c_world c) = mkSubscriber u e (reloadCh (subscriber w))
  | S_Unlock => c_locked c = true /\ subscriber (c_world c) = mkSubscriber u e r
  | S_Done => c_locked c = false /\ subscriber (c_world c) = mkSubscriber u e r
  end.

(** ** Sample inputs *)

(** A result field: the fourth body element of systemd's [JobRemoved]. *)
Definition fourth_body_string (signal : Signal) : string :=
  match Body signal !! 3 with
  | Some (VString result) => result
  | _ => ""
  end.

Definition unit_path : ObjectPath := "/org/freedesktop/systemd1/unit/unit_2eservice".
Definition job_path : ObjectPath := "/org/freedesktop/systemd1/job/1".

(** A bus on which every call fails. *)
Definition silent_bus : Bus :=
  mkBus (fun _ => None) (fun _ => Failure (bus_error "no such unit")) (fun _ => "").

(** A bus that knows one running, enabled unit. *)
Definition unit_bus : Bus :=
  mkBus
    (fun name => if String.eqb name "unit.service" then Some unit_path else None)
    (fun _ => Success (<["SubState" := VString "running"]>
                         (<["Id" := VString "unit.service"]> ∅)))
    (fun _ => "enabled").

Definition sig_UnitFilesChanged : Signal :=
  mkSignal "org.freedesktop.systemd1" "/org/freedesktop/systemd1" UnitFilesChanged [].

Definition sig_Reloading (b : bool) : Signal :=
  mkSignal "org.freedesktop.systemd1" "/org/freedesktop/systemd1" Reloading [VBool b].

Definition sig_PropertiesChanged : Signal :=
  mkSignal "org.freedesktop.systemd1" unit_path PropertiesChanged
    [VString UnitInterface; VOther; VOther].

Definition sig_JobRemoved : Signal :=
  mkSignal "org.freedesktop.systemd1" job_path JobRemoved
    [VUint32 1; VObjectPath job_path; VString "unit.service"; VString "done"].

(** No job, no subscriber, no channel. *)
Definition empty_world : World :=
  mkWorld ∅ (mkSubscriber None None None) (mkStore ∅ ∅ ∅ ∅).

(** Only a reload channel is installed, with room for one event: the state
    [RemoveSubStateSubscriber] leaves behind. *)
Definition reload_only_world : World :=
  mkWorld ∅ (mkSubscriber None None (Some 0))
    (mkStore ∅ ∅ (<[0 := make_chan 1]> ∅) ∅).

(** A subscriber whose update channel is unbuffered with nobody receiving,
    whose error channel buffers two errors and whose reload channel buffers
    one event. *)
Definition stalled_world : World :=
  mkWorld ∅ (mkSubscriber (Some 0) (Some 0) (Some 0))
    (mkStore (<[0 := make_chan 0]> ∅) (<[0 := make_chan 2]> ∅)
       (<[0 := make_chan 1]> ∅) ∅).

(** A subscriber all of whose channels buffer one value. *)
Definition subscribed_world : World :=
  mkWorld ∅ (mkSubscriber (Some 0) (Some 0) (Some 0))
    (mkStore (<[0 := make_chan 1]> ∅) (<[0 := make_chan 1]> ∅)
       (<[0 := make_chan 1]> ∅) ∅).

(** ** Connections ([connection.go]) *)

(** A [*dbus.Conn] is known by a number. *)
Definition conn_id := nat.

(** [dbus.BusObject]: a destination and an object path on a connection. *)
Record BusObject := mkBusObject {
  bo_conn : conn_id;
  bo_dest : string;
  bo_path : ObjectPath
}.

(** [conn.Object(dest, path)] and [conn.BusObject()]. *)
Definition conn_Object (conn : conn_id) (dest : string) (path : ObjectPath) : BusObject :=
  mkBusObject conn dest path.

Definition conn_BusObject (conn : conn_id) : BusObject :=
  conn_Object conn "org.freedesktop.DBus" "/org/freedesktop/DBus".

Definition systemdObject (conn : conn_id) : BusObject :=
  conn_Object conn "org.freedesktop.systemd1" "/org/freedesktop/systemd1".

(** [obj.Call(method, flags, args...)] as it goes out on the wire. *)
Record MethodCall := mkMethodCall {
  call_obj : BusObject;
  call_method : string;
  call_flags : nat;
  call_args : list Value
}.

(** The connections the process holds open and the method calls it has sent
    so far, the latest last. *)
Record Net := mkNet {
  net_open : gset conn_id;
  net_calls : list MethodCall
}.

(** [conn.Close()]. *)
Definition conn_Close (conn : conn_id) (n : Net) : Net :=
  mkNet (net_open n ∖ {[conn]}) (net_calls n).

(** [obj.Call(method, flags, args...)] with its reply left unread. *)
Definition obj_Call (obj : BusObject) (method : string) (flags : nat)
    (args : list Value) (n : Net) : Net :=
  mkNet (net_open n) (net_calls n ++ [mkMethodCall obj method flags args]).

(** [dbus.Auth]: the one mechanism the package offers. *)
Inductive Auth :=
| AuthExternal (user : string).

(** A Go function without arguments that returns a connection or an
    error, as [NewConnection] and the two authentication helpers take. *)
Definition Dialer := Net -> Reply conn_id * Net.

(** What lies outside the package: the uid of the process, the dialers of
    the dbus library, and the answers of the peer to authentication, to
    [Hello] and to a call whose reply is read with [Store]. *)
Record Remote := mkRemote {
  os_Getuid : Z;
  dbus_SystemBusPrivate : Dialer;
  dbus_SessionBusPrivate : Dialer;
  dbus_Dial : string -> Dialer;
  conn_Auth : conn_id -> list Auth -> option error;
  conn_Hello : conn_id -> option error;
  call_Store : MethodCall -> option error
}.

(** [strconv.Itoa]. *)
Definition strconv_Itoa (i : Z) : string := pretty i.

(** The fields of [Conn]; [shared] holds the job map and the subscriber
    slot. *)
Record Conn := mkConn {
  sysconn : conn_id;
  sysobj : BusObject;
  sigconn : conn_id;
  sigobj : BusObject;
  shared : World
}.

Definition Raw (c : Conn) : conn_id := sysconn c.

Definition Close (c : Conn) (n : Net) : Net :=
  conn_Close (sigconn c) (conn_Close (sysconn c) n).

Section Connecting.

Variable remote : Remote.

Definition dbusAuthConnection (createBus : Dialer) : Dialer :=
  fun n =>
    match createBus n with
    | (Failure err, n) => (Failure err, n)
    | (Success conn, n) =>
        let methods := [AuthExternal (strconv_Itoa (os_Getuid remote))] in
        match conn_Auth remote conn methods with
        | Some err => (Failure err, conn_Close conn n)
        | None => (Success conn, n)
        end
    end.

Definition dbusAuthHelloConnection (createBus : Dialer) : Dialer :=
  fun n =>
    match dbusAuthConnection createBus n with
    | (Failure err, n) => (Failure err, n)
    | (Success conn, n) =>
        match conn_Hello remote conn with
        | Some err => (Failure err, conn_Close conn n)
        | None => (Success conn, n)
        end
    end.

(** [NewConnection].  [chans] are the channels that exist in the program
    when the connection is made; the new [Conn] refers to none of them.
    The goroutine that [c.dispatch()] starts is [dispatch], run on the
    queue that the signal connection feeds. *)
Definition NewConnection (dialBus : Dialer) (chans : Store) (n : Net)
  : Reply Conn * Net :=
  match dialBus n with
  | (Failure err, n) => (Failure err, n)
  | (Success sysconn, n) =>
      match dialBus n with
      | (Failure err, n) => (Failure err, conn_Close sysconn n)
      | (Success sigconn, n) =>
          let c :=
            mkConn sysconn (systemdObject sysconn) sigconn (systemdObject sigconn)
              (mkWorld ∅ (mkSubscriber None None None) chans) in
          let n :=
            obj_Call (conn_BusObject sigconn) (* c.sigconn *)
              "org.freedesktop.DBus.AddMatch" 0
              [VString "type='signal', interface='org.freedesktop.systemd1.Manager', member='JobRemoved'"]
              n in
          (Success c, n)
      end
  end.

Definition NewSystemConnection : Store -> Net -> Reply Conn * Net :=
  NewConnection (dbusAuthHelloConnection (dbus_SystemBusPrivate remote)).

Definition NewUserConnection : Store -> Net -> Reply Conn * Net :=
  NewConnection (dbusAuthHelloConnection (dbus_SessionBusPrivate remote)).

Definition NewSystemdConnection : Store -> Net -> Reply Conn * Net :=
  NewConnection
    (dbusAuthConnection (dbus_Dial remote "unix:path=/run/systemd/private")).


(** [Unsubscribe]: the subscriber is removed first, then
    [Manager.Unsubscribe] is called and its error returned. *)
Definition Unsubscribe (c : Conn) (n : Net) : Conn * option error * Net :=
  let c :=
    mkConn (sysconn c) (sysobj c) (sigconn c) (sigobj c)
      (RemoveSubStateSubscriber (shared c)) in
  let call := mkMethodCall (sigobj c) "org.freedesktop.systemd1.Manager.Unsubscribe" 0 [] in
  let n := obj_Call (call_obj call) (call_method call) (call_flags call) (call_args call) n in
  (c, call_Store remote call, n).

End Connecting.

(** ** Further vocabulary *)

(** A dialer that opens the connection it returns, a connection that was
    not open before, and that leaves none open when it fails. *)
Definition opens_fresh (d : Dialer) : Prop :=
  forall n,
    match d n with
    | (Success conn, n') =>
        (conn ∉ net_open n) /\ net_open n' = net_open n ∪ {[conn]}
    | (Failure _, n') => net_open n' = net_open n
    end.

Definition is_UnitFilesChanged_b (bs : Bus * Signal) : bool :=
  String.eqb (Name (snd bs)) UnitFilesChanged.

Definition is_Reloading_false_b (bs : Bus * Signal) : bool :=
  String.eqb (Name (snd bs)) Reloading
  && match Body (snd bs) !! 0 with
     | Some (VBool false) => true
     | _ => false
     end.

Definition how_many {A} (f : A -> bool) (l : list A) : nat :=
  length (List.filter f l).

(** [c'] is [c] after some sends: the same capacity, the values received
    so far still there in the same order, and a buffer that was within the
    capacity still within it. *)
Definition grows {A} (c c' : chan A) : Prop :=
  ch_cap c' = ch_cap c /\
  received c `prefix_of` received c' /\
  (length (ch_buf c) <= ch_cap c -> length (ch_buf c') <= ch_cap c').

Definition store_grows {A} (h h' : gmap ref (chan A)) : Prop :=
  forall r c, h !! r = Some c -> exists c', h' !! r = Some c' /\ grows c c'.

(** The program points at which a goroutine holds the subscriber mutex.  A
    delivery that has panicked has not released it. *)
Definition deliver_holds (pc : DeliverPc) : bool :=
  match pc with
  | D_Lock | D_Done => false
  | _ => true
  end.

Definition set_holds (pc : SetPc) : bool :=
  match pc with
  | S_Lock | S_Done => false
  | _ => true
  end.

(** The statements [SetSubStateSubscriber] has yet to run. *)
Definition set_left (pc : SetPc) : nat :=
  match pc with
  | S_Lock => 5
  | S_UpdateCh => 4
  | S_ErrCh => 3
  | S_ReloadCh => 2
  | S_Unlock => 1
  | S_Done => 0
  end.

(** The subscriber slot while [SetSubStateSubscriber] is at a program
    point, [old] being the slot it found. *)
Definition slot_at (old : Subscriber) (u e r : option ref) (pc : SetPc) : Subscriber :=
  match pc with
  | S_Lock | S_UpdateCh => old
  | S_ErrCh => mkSubscriber u (errCh old) (reloadCh old)
  | S_ReloadCh => mkSubscriber u e (reloadCh old)
  | S_Unlock | S_Done => mkSubscriber u e r
  end.

(** The two goroutines are not both inside, the mutex is taken exactly when
    one of them is, and the slot is where [SetSubStateSubscriber] has
    brought it. *)
Definition mutex_ok (old : Subscriber) (u e r : option ref) (c : Conc) : Prop :=
  deliver_holds (c_deliver c) && set_holds (c_set c) = false /\
  c_locked c = deliver_holds (c_deliver c) || set_holds (c_set c) /\
  subscriber (c_world c) = slot_at old u e r (c_set c).

(** What a constructor of [Conn] owes its caller when it is called with
    the connections of [n] open: on failure the same connections are open
    as before; on success two new, distinct connections are open besides,
    [sysconn] with [sysobj] on it and [sigconn] with [sigobj] on it, and the
    [Conn] starts with an empty job map and an empty subscriber slot. *)
Definition connected (chans : Store) (n : Net) (out : Reply Conn * Net) : Prop :=
  match out with
  | (Failure _, n') => net_open n' = net_open n
  | (Success c, n') =>
      (sysconn c ∉ net_open n) /\ (sigconn c ∉ net_open n) /\
      sysconn c <> sigconn c /\
      net_open n' = net_open n ∪ {[sysconn c; sigconn c]} /\
      sysobj c = systemdObject (sysconn c) /\
      sigobj c = systemdObject (sigconn c) /\
      shared c = mkWorld ∅ (mkSubscriber None None None) chans
  end.




(** ** Further sample inputs *)

(** A [JobRemoved] cut short after its job path, and a
    [PropertiesChanged] without a body. *)
Definition sig_short_JobRemoved : Signal :=
  mkSignal "org.freedesktop.systemd1" job_path JobRemoved
    [VUint32 1; VObjectPath job_path].

Definition sig_bare_PropertiesChanged : Signal :=
  mkSignal "org.freedesktop.systemd1" unit_path PropertiesChanged [].

Definition sig_UnitNew : Signal :=
  mkSignal "org.freedesktop.systemd1" "/org/freedesktop/systemd1"
    "org.freedesktop.systemd1.Manager.UnitNew" [].

(** A bus whose unit has lost its [SubState] property. *)
Definition broken_bus : Bus :=
  mkBus (fun _ => Some unit_path)
    (fun _ => Success (<["Id" := VString "unit.service"]> ∅))
    (fun _ => "enabled").

(** A subscriber whose reload channel is unbuffered with nobody receiving. *)
Definition deaf_world : World :=
  mkWorld ∅ (mkSubscriber (Some 0) (Some 0) (Some 0))
    (mkStore (<[0 := make_chan 1]> ∅) (<[0 := make_chan 1]> ∅)
       (<[0 := make_chan 0]> ∅) ∅).

Definition no_net : Net := mkNet ∅ [].

(** A dialer that opens the next free connection. *)
Definition next_dial : Dialer :=
  fun n =>
    let conn := fresh (net_open n) in
    (Success conn, mkNet (net_open n ∪ {[conn]}) (net_calls n)).

Definition refused_dial : Dialer :=
  fun n => (Failure (bus_error "connection refused"), n).

(** A peer that accepts everything, reached by [next_dial]. *)
Definition friendly_remote : Remote :=
  mkRemote 1000 next_dial next_dial (fun _ => next_dial)
    (fun _ _ => None) (fun _ => None) (fun _ => None).

(** A peer that accepts the first connection only: it rejects the [Hello]
    of any later one, and fails every call. *)
Definition grumpy_remote : Remote :=
  mkRemote 0 next_dial next_dial (fun _ => next_dial)
    (fun _ _ => None)
    (fun conn => if conn =? 0 then None else Some (bus_error "hello rejected"))
    (fun _ => Some (bus_error "call failed")).

(** * Properties *)

(** ** Channels *)

Lemma try_send_Some {A} (c c' : chan A) (v : A) :
  try_send c v = Some c' ->
  room c = S (room c') /\ ch_cap c' = ch_cap c /\ received c' = received c ++ [v].
Proof.
  destruct c as [cap buf q handed]. unfold try_send, room, received. simpl.
  assert (Hbuf : forall (b : A) (l : list A),
             (if length (b :: l) <? cap
              then Some (mkChan cap ((b :: l) ++ [v]) q handed) else None) = Some c' ->
             cap - length (b :: l) =
             S match ch_recvq c', ch_buf c' with
               | S n, [] => S n + ch_cap c'
               | _, buf' => ch_cap c' - length buf'
               end /\
             ch_cap c' = cap /\
             ch_handed c' ++ ch_buf c' = (handed ++ b :: l) ++ [v]).
  { intros b l. destruct (Nat.ltb_spec (length (b :: l)) cap) as [Hlt|Hge];
      [|discriminate].
    intros [= <-]. simpl in *. rewrite length_app, <- app_assoc. simpl.
    destruct q; repeat split; lia. }
  destruct q as [|n], buf as [|b buf]; simpl; try apply Hbuf.
  - destruct (Nat.ltb_spec 0 cap) as [Hlt|Hge]; [|discriminate].
    intros [= <-]. simpl. rewrite app_nil_r. repeat split. lia.
  - intros [= <-]. simpl. rewrite !app_nil_r. repeat split. destruct n; lia.
Qed.

Lemma try_send_None {A} (c : chan A) (v : A) :
  try_send c v = None <-> room c = 0.
Proof.
  unfold try_send, room.
  destruct (ch_recvq c) as [|n], (ch_buf c) as [|b buf]; simpl;
    repeat case_match; split; intros; simplify_eq;
    try match goal with H : (_ <? _) = true |- _ => apply Nat.ltb_lt in H end;
    try match goal with H : (_ <? _) = false |- _ => apply Nat.ltb_ge in H end;
    simpl in *; try lia; try reflexivity.
Qed.

Lemma select_send_ready {A} (h : gmap ref (chan A)) (ch : option ref) (v : A) :
  ready h ch = true ->
  exists h', select_send h ch v = Some h' /\ delivered h ch v h'.
Proof.
  unfold ready, select_send. destruct ch as [r|]; [|discriminate].
  destruct (h !! r) as [c|] eqn:Hc; [|discriminate].
  intros Hr. apply bool_decide_eq_true in Hr.
  destruct (try_send c v) as [c'|] eqn:Hs.
  - exists (<[r := c']> h). split; [reflexivity|].
    apply try_send_Some in Hs as (_ & Hcap & Hrec).
    exists r, c, c'. auto.
  - apply try_send_None in Hs. lia.
Qed.

Lemma select_send_not_ready {A} (h : gmap ref (chan A)) (ch : option ref) (v : A) :
  ready h ch = false -> select_send h ch v = None.
Proof.
  unfold ready, select_send. destruct ch as [r|]; [|reflexivity].
  destruct (h !! r) as [c|] eqn:Hc; [|reflexivity].
  intros Hr. apply bool_decide_eq_false in Hr.
  assert (Hz : room c = 0) by lia.
  apply (try_send_None c v) in Hz. rewrite Hz. reflexivity.
Qed.

Lemma select_send_Some {A} (h h' : gmap ref (chan A)) (ch : option ref) (v : A) :
  select_send h ch v = Some h' ->
  exists r c c', ch = Some r /\ h !! r = Some c /\ try_send c v = Some c' /\
                 h' = <[r := c']> h.
Proof.
  unfold select_send. destruct ch as [r|]; [|discriminate].
  destruct (h !! r) as [c|] eqn:Hc; [|discriminate].
  destruct (try_send c v) as [c'|] eqn:Hs; [|discriminate].
  intros [= <-]. exists r, c, c'. auto.
Qed.

Lemma set_errChans_id (w : World) : set_errChans w (errChans (store w)) = w.
Proof. destruct w as [j s [u e r jc]]. reflexivity. Qed.

Lemma set_updateChans_id (w : World) : set_updateChans w (updateChans (store w)) = w.
Proof. destruct w as [j s [u e r jc]]. reflexivity. Qed.

Lemma set_reloadChans_id (w : World) : set_reloadChans w (reloadChans (store w)) = w.
Proof. destruct w as [j s [u e r jc]]. reflexivity. Qed.

(** ** The subscriber slot *)

(** C10.  [RemoveSubStateSubscriber] sets the update and the error channel
    to nil and leaves the reload channel as it was: a reload channel
    installed by [SetSubStateSubscriber] is still installed after the
    subscriber has been removed.  Nothing else changes. *)
Theorem RemoveSubStateSubscriber_keeps_reloadCh (w : World) (u e r : option ref) :
  let w' := RemoveSubStateSubscriber (SetSubStateSubscriber w u e r) in
  updateCh (subscriber w') = None /\
  errCh (subscriber w') = None /\
  reloadCh (subscriber w') = r /\
  reloadCh (subscriber (RemoveSubStateSubscriber w)) = reloadCh (subscriber w) /\
  updateCh (subscriber (RemoveSubStateSubscriber w)) = None /\
  errCh (subscriber (RemoveSubStateSubscriber w)) = None /\
  jobs (RemoveSubStateSubscriber w) = jobs w /\
  store (RemoveSubStateSubscriber w) = store w.
Proof. simpl. repeat split. Qed.

(** The effect of one non-blocking send on a store, by cases on [ready]. *)
Lemma select_send_cases {A} (h : gmap ref (chan A)) (ch : option ref) (v : A) :
  (ready h ch = true /\
   exists h', select_send h ch v = Some h' /\ delivered h ch v h') \/
  (ready h ch = false /\ select_send h ch v = None).
Proof.
  destruct (ready h ch) eqn:Hr.
  - left. split; [reflexivity|]. apply select_send_ready, Hr.
  - right. split; [reflexivity|]. apply select_send_not_ready, Hr.
Qed.

(** C4.  [sendSubStateUpdate] never blocks and keeps nothing for later: it
    returns after touching at most one channel.  If the fetch fails, the
    error is sent on the error channel when that channel is ready and is
    dropped otherwise, and the update channel is not touched.  If the fetch
    succeeds, the update is sent on the update channel when it is ready;
    when it is absent or full, the error "update channel full" is sent on
    the error channel if that one is ready, and otherwise the event is
    dropped and the whole state is as before. *)
Theorem sendSubStateUpdate_best_effort (bus : Bus) (w : World) (path : ObjectPath) :
  fetch_ok bus path = true ->
  exists w',
    sendSubStateUpdate bus w path = Ok w' /\
    jobs w' = jobs w /\ subscriber w' = subscriber w /\
    reloadChans (store w') = reloadChans (store w) /\
    jobChans (store w') = jobChans (store w) /\
    match GetUnitPropertiesFromObjectPath bus path with
    | Failure err =>
        updateChans (store w') = updateChans (store w) /\
        if ready (errChans (store w)) (errCh (subscriber w))
        then delivered (errChans (store w)) (errCh (subscriber w)) err
               (errChans (store w'))
        else w' = w
    | Success unitProps =>
        forall substate unitName,
          unitProps !! "SubState" = Some (VString substate) ->
          unitProps !! "Id" = Some (VString unitName) ->
          let update :=
            mkSubStateUpdate unitName substate (GetUnitFileState bus unitName) in
          if ready (updateChans (store w)) (updateCh (subscriber w))
          then delivered (updateChans (store w)) (updateCh (subscriber w)) update
                 (updateChans (store w')) /\
               errChans (store w') = errChans (store w)
          else updateChans (store w') = updateChans (store w) /\
               if ready (errChans (store w)) (errCh (subscriber w))
               then delivered (errChans (store w)) (errCh (subscriber w))
                      (errors_New "update channel full") (errChans (store w'))
               else w' = w
    end.
Proof.
  unfold fetch_ok, sendSubStateUpdate.
  destruct (GetUnitPropertiesFromObjectPath bus path) as [unitProps|err].
  - destruct (unitProps !! "SubState") as [[sub| | | |]|] eqn:Hsub; try discriminate.
    destruct (unitProps !! "Id") as [[id| | | |]|] eqn:Hid; try discriminate.
    intros _. simpl.
    destruct (select_send_cases (updateChans (store w)) (updateCh (subscriber w))
                (mkSubStateUpdate id sub (GetUnitFileState bus id)))
      as [(Hr & h' & Hs & Hd)|(Hr & Hs)]; rewrite Hs.
    + exists (set_updateChans w h'). repeat split.
      intros ? ? [= <-] [= <-]. simpl. rewrite Hr. auto.
    + destruct (select_send_cases (errChans (store w)) (errCh (subscriber w))
                  (errors_New "update channel full"))
        as [(Hre & h' & Hse & Hd)|(Hre & Hse)]; rewrite Hse.
      * exists (set_errChans w h'). repeat split.
        intros ? ? [= <-] [= <-]. simpl. rewrite Hr, Hre. auto.
      * exists w. repeat split.
        intros ? ? [= <-] [= <-]. simpl. rewrite Hr, Hre. auto.
  - intros _.
    destruct (select_send_cases (errChans (store w)) (errCh (subscriber w)) err)
      as [(Hre & h' & Hse & Hd)|(Hre & Hse)]; rewrite Hse.
    + exists (set_errChans w h'). repeat split. rewrite Hre. exact Hd.
    + exists w. repeat split. rewrite Hre. reflexivity.
Qed.

Lemma sendSubStateUpdate_best_effort_witness :
  fetch_ok unit_bus unit_path = true /\
  fetch_ok silent_bus unit_path = true /\
  (exists w',
     sendSubStateUpdate unit_bus stalled_world unit_path = Ok w' /\
     updateChans (store w') = updateChans (store stalled_world) /\
     errChans (store w') !! 0 = Some (mkChan 2 [errors_New "update channel full"] 0 [])) /\
  (exists w',
     sendSubStateUpdate silent_bus stalled_world unit_path = Ok w' /\
     updateChans (store w') = updateChans (store stalled_world) /\
     errChans (store w') !! 0 = Some (mkChan 2 [bus_error "no such unit"] 0 [])).
Proof.
  split; [vm_compute; reflexivity|].
  split; [vm_compute; reflexivity|].
  split.
  - destruct (sendSubStateUpdate_best_effort unit_bus stalled_world unit_path)
      as (w' & Hrun & _ & _ & _ & _ & Hcase).
    { vm_compute. reflexivity. }
    exists w'. split; [exact Hrun|].
    vm_compute in Hrun. injection Hrun as <-. split; vm_compute; reflexivity.
  - destruct (sendSubStateUpdate_best_effort silent_bus stalled_world unit_path)
      as (w' & Hrun & _ & _ & _ & _ & Hcase).
    { vm_compute. reflexivity. }
    exists w'. split; [exact Hrun|].
    vm_compute in Hrun. injection Hrun as <-. split; vm_compute; reflexivity.
Defined.

(** ** Frames of the operations *)

Lemma sendSubStateUpdate_frame (bus : Bus) (w w' : World) (path : ObjectPath) :
  sendSubStateUpdate bus w path = Ok w' ->
  jobs w' = jobs w /\ subscriber w' = subscriber w /\
  reloadChans (store w') = reloadChans (store w) /\
  jobChans (store w') = jobChans (store w).
Proof.
  unfold sendSubStateUpdate.
  destruct (GetUnitPropertiesFromObjectPath bus path) as [unitProps|err].
  - destruct (assert_string (unitProps !! "SubState")) as [sub|]; [|discriminate].
    destruct (assert_string (unitProps !! "Id")) as [id|]; [|discriminate].
    simpl. repeat case_match; intros [= <-]; repeat split.
  - repeat case_match; intros [= <-]; repeat split.
Qed.

Lemma sendSubStateReload_frame (w : World) :
  jobs (sendSubStateReload w) = jobs w /\
  subscriber (sendSubStateReload w) = subscriber w /\
  updateChans (store (sendSubStateReload w)) = updateChans (store w) /\
  errChans (store (sendSubStateReload w)) = errChans (store w) /\
  jobChans (store (sendSubStateReload w)) = jobChans (store w).
Proof. unfold sendSubStateReload. case_match; repeat split. Qed.

Section DispatchFacts.

Variable job_result : Signal -> string.

Lemma jobComplete_frame (w : World) (signal : Signal) :
  subscriber (jobComplete job_result w signal) = subscriber w /\
  updateChans (store (jobComplete job_result w signal)) = updateChans (store w) /\
  errChans (store (jobComplete job_result w signal)) = errChans (store w) /\
  reloadChans (store (jobComplete job_result w signal)) = reloadChans (store w).
Proof. unfold jobComplete. repeat case_match; repeat split. Qed.

Lemma after_jobComplete_frame (w : World) (signal : Signal) :
  subscriber (after_jobComplete job_result w signal) = subscriber w /\
  updateChans (store (after_jobComplete job_result w signal)) = updateChans (store w) /\
  errChans (store (after_jobComplete job_result w signal)) = errChans (store w) /\
  reloadChans (store (after_jobComplete job_result w signal)) = reloadChans (store w).
Proof.
  unfold after_jobComplete. case_match; [apply jobComplete_frame|repeat split].
Qed.

(** The loop body without a subscriber is [jobComplete] and nothing else. *)
Lemma dispatch_iter_unsubscribed (bus : Bus) (w : World) (l : LoopVars) (signal : Signal) :
  updateCh (subscriber w) = None ->
  dispatch_iter job_result bus w l signal = Ok (after_jobComplete job_result w signal, l).
Proof.
  intros Hu. unfold dispatch_iter. fold (after_jobComplete job_result w signal).
  destruct (after_jobComplete_frame w signal) as (Hs & _).
  rewrite Hs, Hu. reflexivity.
Qed.

(** The loop body with a subscriber is the switch, then the delivery for
    the unit path the switch has left. *)
Lemma dispatch_iter_subscribed (bus : Bus) (w : World) (l : LoopVars) (signal : Signal)
    (u : ref) :
  updateCh (subscriber w) = Some u ->
  dispatch_iter job_result bus w l signal =
  let! sw := dispatch_switch bus (after_jobComplete job_result w signal) l signal in
  match sw with
  | (w, l, Continue) => Ok (w, l)
  | (w, l, Fallthrough unitPath) =>
      if String.eqb unitPath "" then Ok (w, l)
      else let! w := sendSubStateUpdate bus w unitPath in Ok (w, l)
  end.
Proof.
  intros Hu. unfold dispatch_iter. fold (after_jobComplete job_result w signal).
  destruct (after_jobComplete_frame w signal) as (Hs & _).
  rewrite Hs, Hu. reflexivity.
Qed.

Lemma dispatch_loop_iterate (pending : list (Bus * Signal)) (closed : bool)
    (w : World) (l : LoopVars) :
  dispatch_loop job_result pending closed w l =
  match iterate job_result pending w l with
  | Ok (w', l') => if closed then Returned w' l' else Parked w' l'
  | Panic => Crashed
  end.
Proof.
  revert w l. induction pending as [|[bus signal] rest IH]; intros w l; simpl.
  - reflexivity.
  - destruct (dispatch_iter job_result bus w l signal) as [[w' l']|]; simpl.
    + apply IH.
    + reflexivity.
Qed.

(** ** Shutdown *)

(** C8.  When the queue is closed the goroutine returns: it never stays
    parked on the receive, and the receive that finds the queue closed
    changes nothing, so the state it returns with is the one left by the
    last signal it handled.  Nothing is sent on any channel and no error is
    raised for the shutdown. *)
Theorem dispatch_returns_on_closed_queue (pending : list (Bus * Signal))
    (w : World) (l : LoopVars) :
  dispatch_loop job_result [] true w l = Returned w l /\
  dispatch job_result (mkSignalQueue [] true) w = Returned w loop_start /\
  dispatch_loop job_result pending true w l =
    match iterate job_result pending w l with
    | Ok (w', l') => Returned w' l'
    | Panic => Crashed
    end /\
  (forall w' l', dispatch_loop job_result pending true w l <> Parked w' l').
Proof.
  split; [reflexivity|]. split; [reflexivity|].
  rewrite dispatch_loop_iterate. split.
  - reflexivity.
  - intros w' l'. destruct (iterate job_result pending w l) as [[w'' l'']|]; discriminate.
Qed.

End DispatchFacts.

Section LoopBody.

Variable job_result : Signal -> string.

(** ** The switch, case by case *)

Lemma switch_JobRemoved (bus : Bus) (w : World) (l : LoopVars) (signal : Signal) :
  Name signal = JobRemoved ->
  dispatch_switch bus w l signal =
  let! name := assert_string (Body signal !! 2) in
  Ok (w, l, Fallthrough (default "" (GetUnit bus name))).
Proof. intros H. unfold dispatch_switch. rewrite H. reflexivity. Qed.


Lemma switch_Reloading (bus : Bus) (w : World) (l : LoopVars) (signal : Signal) (b : bool) :
  is_Reloading b signal ->
  dispatch_switch bus w l signal =
  if unitFilesChanged l && negb b
  then Ok (sendSubStateReload w, mkLoopVars b false, Continue)
  else Ok (w, mkLoopVars b (unitFilesChanged l), Fallthrough "").
Proof. intros [H Hb]. unfold dispatch_switch. rewrite H, Hb. reflexivity. Qed.

Lemma switch_UnitFilesChanged (bus : Bus) (w : World) (l : LoopVars) (signal : Signal) :
  is_UnitFilesChanged signal ->
  dispatch_switch bus w l signal = Ok (w, mkLoopVars (reloadState l) true, Continue).
Proof. intros H. unfold dispatch_switch. rewrite H. reflexivity. Qed.

Lemma after_jobComplete_other (w : World) (signal : Signal) :
  Name signal <> JobRemoved -> after_jobComplete job_result w signal = w.
Proof.
  intros H. unfold after_jobComplete.
  destruct (String.eqb_spec (Name signal) JobRemoved); [contradiction|reflexivity].
Qed.

Lemma iter_Reloading (bus : Bus) (w : World) (l : LoopVars) (signal : Signal)
    (b : bool) (u : ref) :
  updateCh (subscriber w) = Some u ->
  is_Reloading b signal ->
  dispatch_iter job_result bus w l signal =
  if unitFilesChanged l && negb b
  then Ok (sendSubStateReload w, mkLoopVars b false)
  else Ok (w, mkLoopVars b (unitFilesChanged l)).
Proof.
  intros Hu Hr. rewrite (dispatch_iter_subscribed _ _ _ _ _ u Hu).
  rewrite after_jobComplete_other by (destruct Hr as [-> _]; discriminate).
  rewrite (switch_Reloading _ _ _ _ b Hr).
  destruct (unitFilesChanged l && negb b); reflexivity.
Qed.

Lemma iter_UnitFilesChanged (bus : Bus) (w : World) (l : LoopVars) (signal : Signal)
    (u : ref) :
  updateCh (subscriber w) = Some u ->
  is_UnitFilesChanged signal ->
  dispatch_iter job_result bus w l signal = Ok (w, mkLoopVars (reloadState l) true).
Proof.
  intros Hu Hr. rewrite (dispatch_iter_subscribed _ _ _ _ _ u Hu).
  rewrite after_jobComplete_other by (rewrite Hr; discriminate).
  rewrite (switch_UnitFilesChanged _ _ _ _ Hr). reflexivity.
Qed.

(** ** Reload bookkeeping *)

(** C5, as the code has it.  The bookkeeping of the two loop variables is
    done only while an update channel is installed.  With one installed, a
    [UnitFilesChanged] signal sets [unitFilesChanged], and a [Reloading]
    signal sets [reloadState] from its first body element.  With none, the
    loop body continues before its switch: whatever the signal, it runs
    [jobComplete] at most and leaves both variables as they were. *)
Theorem reload_bookkeeping_behind_updateCh (bus : Bus) (w : World) (l : LoopVars)
    (signal : Signal) :
  (updateCh (subscriber w) = None ->
   dispatch_iter job_result bus w l signal =
   Ok (after_jobComplete job_result w signal, l)) /\
  (forall u, updateCh (subscriber w) = Some u ->
     (is_UnitFilesChanged signal ->
      dispatch_iter job_result bus w l signal =
      Ok (w, mkLoopVars (reloadState l) true)) /\
     (forall b, is_Reloading b signal ->
      exists w' l',
        dispatch_iter job_result bus w l signal = Ok (w', l') /\
        reloadState l' = b)).
Proof.
  split; [apply dispatch_iter_unsubscribed|].
  intros u Hu. split.
  - apply (iter_UnitFilesChanged _ _ _ _ u Hu).
  - intros b Hb. rewrite (iter_Reloading _ _ _ _ b u Hu Hb).
    destruct (unitFilesChanged l && negb b); eauto.
Qed.

End LoopBody.

(** C5 as the spec words it fails: with a reload channel but no update
    channel installed, a [UnitFilesChanged] signal leaves [unitFilesChanged]
    false and a [Reloading(true)] signal leaves [reloadState] false. *)
Lemma bookkeeping_skipped_without_updateCh :
  (exists l',
     dispatch_iter fourth_body_string silent_bus reload_only_world loop_start
       sig_UnitFilesChanged = Ok (reload_only_world, l') /\
     unitFilesChanged l' <> true) /\
  (exists l',
     dispatch_iter fourth_body_string silent_bus reload_only_world loop_start
       (sig_Reloading true) = Ok (reload_only_world, l') /\
     reloadState l' <> true).
Proof.
  split; exists loop_start; (split; [vm_compute; reflexivity|discriminate]).
Qed.

Lemma reload_bookkeeping_behind_updateCh_witness :
  dispatch_iter fourth_body_string silent_bus reload_only_world loop_start
    sig_UnitFilesChanged = Ok (reload_only_world, loop_start) /\
  dispatch_iter fourth_body_string silent_bus subscribed_world loop_start
    sig_UnitFilesChanged = Ok (subscribed_world, mkLoopVars false true) /\
  exists w' l',
    dispatch_iter fourth_body_string silent_bus subscribed_world loop_start
      (sig_Reloading true) = Ok (w', l') /\ reloadState l' = true.
Proof.
  split; [|split].
  - apply (proj1 (reload_bookkeeping_behind_updateCh fourth_body_string silent_bus
                    reload_only_world loop_start sig_UnitFilesChanged)).
    reflexivity.
  - apply (proj2 (reload_bookkeeping_behind_updateCh fourth_body_string silent_bus
                    subscribed_world loop_start sig_UnitFilesChanged) 0).
    + reflexivity.
    + reflexivity.
  - apply (proj2 (reload_bookkeeping_behind_updateCh fourth_body_string silent_bus
                    subscribed_world loop_start (sig_Reloading true)) 0).
    + reflexivity.
    + split; reflexivity.
Defined.

Section Candidates.

Variable job_result : Signal -> string.


(** ** The unit path of a notification *)


End Candidates.


Section Reload.

Variable job_result : Signal -> string.

(** A turn of the loop either leaves the reload channels alone, or it is the
    turn of a [Reloading(false)] signal met with [unitFilesChanged] set, and
    then it is [sendSubStateReload] followed by the reset of the variable. *)
Lemma dispatch_iter_reloadChans (bus : Bus) (w w' : World) (l l' : LoopVars)
    (signal : Signal) :
  dispatch_iter job_result bus w l signal = Ok (w', l') ->
  reloadChans (store w') = reloadChans (store w) \/
  (is_Reloading false signal /\ unitFilesChanged l = true /\
   l' = mkLoopVars false false /\ w' = sendSubStateReload w).
Proof.
  destruct (after_jobComplete_frame job_result w signal) as (_ & _ & _ & Hr).
  destruct (updateCh (subscriber w)) as [u|] eqn:Hsub.
  2:{ rewrite (dispatch_iter_unsubscribed _ _ _ _ _ Hsub).
      intros [= <- <-]. left. exact Hr. }
  rewrite (dispatch_iter_subscribed _ _ _ _ _ u Hsub).
  unfold dispatch_switch.
  destruct (String.eqb_spec (Name signal) JobRemoved) as [Hn|Hn].
  { destruct (assert_string _); simpl; [|discriminate].
    case_match.
    - intros [= <- <-]. left. exact Hr.
    - destruct (sendSubStateUpdate _ _ _) as [w2|] eqn:Hs; simpl; [|discriminate].
      intros [= <- <-]. left.
      apply sendSubStateUpdate_frame in Hs as (_ & _ & Hs & _). congruence. }
  rewrite (after_jobComplete_other job_result w signal Hn).
  destruct (String.eqb_spec (Name signal) PropertiesChanged) as [Hp|Hp].
  { destruct (assert_string _); simpl; [|discriminate].
    case_match.
    - intros [= <- <-]. left. reflexivity.
    - destruct (sendSubStateUpdate _ _ _) as [w2|] eqn:Hs; simpl; [|discriminate].
      intros [= <- <-]. left.
      apply sendSubStateUpdate_frame in Hs as (_ & _ & Hs & _). congruence. }
  destruct (String.eqb_spec (Name signal) Reloading) as [Hl|Hl].
  { destruct (Body signal !! 0) as [[| b | | |]|] eqn:Hb; simpl; try discriminate.
    destruct (unitFilesChanged l) eqn:Hufc, b; simpl; intros [= <- <-];
      try (left; reflexivity).
    right. repeat split; assumption. }
  destruct (String.eqb_spec (Name signal) UnitFilesChanged) as [Hf|Hf]; simpl;
    intros [= <- <-]; left; reflexivity.
Qed.

(** ** When a reload event is sent *)

(** C2, as the code has it.  At any turn of the loop, in any run, if the
    reload channels have changed then the signal was a [Reloading] carrying
    false and [unitFilesChanged] was set; the reload channel has received
    exactly one [true], and the turn ends with [unitFilesChanged] reset and
    [reloadState] false.  The value [reloadState] had before the turn plays
    no part. *)
Theorem reload_event_only_on_Reloading_false (pending : list (Bus * Signal))
    (bus : Bus) (w0 w w' : World) (l l' : LoopVars) (signal : Signal) :
  iterate job_result pending w0 loop_start = Ok (w, l) ->
  dispatch_iter job_result bus w l signal = Ok (w', l') ->
  reloadChans (store w') <> reloadChans (store w) ->
  is_Reloading false signal /\
  unitFilesChanged l = true /\
  unitFilesChanged l' = false /\ reloadState l' = false /\
  delivered (reloadChans (store w)) (reloadCh (subscriber w)) true
    (reloadChans (store w')).
Proof.
  intros _ Hit Hne.
  destruct (dispatch_iter_reloadChans _ _ _ _ _ _ Hit)
    as [Heq|(Hr & Hufc & -> & ->)]; [contradiction|].
  repeat split; try assumption; try apply Hr.
  unfold sendSubStateReload in *.
  destruct (select_send_cases (reloadChans (store w)) (reloadCh (subscriber w)) true)
    as [(_ & h' & Hs & Hd)|(_ & Hs)]; rewrite Hs in *.
  - exact Hd.
  - contradiction.
Qed.

(** ** Reload coalescing *)

Lemma iterate_cons (bus : Bus) (signal : Signal) (rest : list (Bus * Signal))
    (w w' : World) (l l' : LoopVars) :
  dispatch_iter job_result bus w l signal = Ok (w', l') ->
  iterate job_result ((bus, signal) :: rest) w l = iterate job_result rest w' l'.
Proof. intros H. simpl. rewrite H. reflexivity. Qed.

(** C1, as the code has it.  With an update channel installed and a
    reload channel that is ready,
    the signals [UnitFilesChanged, Reloading(true), Reloading(false)] make
    the reload channel receive exactly one event and change nothing else;
    so do [UnitFilesChanged, Reloading(true), Reloading(true),
    Reloading(false)]; and [Reloading(true), Reloading(false)], with no
    [UnitFilesChanged] before them, leave every channel as it was.  Each
    time the loop variables are back at their initial values. *)
Theorem reload_coalescing (w : World) (u : ref) (b0 b1 b2 b3 : Bus)
    (s0 s1 s2 s3 : Signal) :
  updateCh (subscriber w) = Some u ->
  ready (reloadChans (store w)) (reloadCh (subscriber w)) = true ->
  is_UnitFilesChanged s0 ->
  is_Reloading true s1 -> is_Reloading true s2 -> is_Reloading false s3 ->
  exists h,
    delivered (reloadChans (store w)) (reloadCh (subscriber w)) true h /\
    dispatch job_result (mkSignalQueue [(b0, s0); (b1, s1); (b3, s3)] true) w
      = Returned (set_reloadChans w h) loop_start /\
    dispatch job_result (mkSignalQueue [(b1, s1); (b3, s3)] true) w
      = Returned w loop_start /\
    dispatch job_result (mkSignalQueue [(b0, s0); (b1, s1); (b2, s2); (b3, s3)] true) w
      = Returned (set_reloadChans w h) loop_start.
Proof.
  intros Hu Hready H0 H1 H2 H3.
  destruct (select_send_ready _ _ true Hready) as (h & Hs & Hd).
  assert (Hsend : sendSubStateReload w = set_reloadChans w h).
  { unfold sendSubStateReload. rewrite Hs. reflexivity. }
  exists h. split; [exact Hd|].
  unfold dispatch. rewrite !dispatch_loop_iterate. simpl q_pending. simpl q_closed.
  assert (E0 : forall l, dispatch_iter job_result b0 w l s0
                         = Ok (w, mkLoopVars (reloadState l) true)).
  { intros l. apply (iter_UnitFilesChanged _ _ _ _ _ u Hu H0). }
  assert (E1 : forall l, dispatch_iter job_result b1 w l s1
                         = Ok (w, mkLoopVars true (unitFilesChanged l))).
  { intros l. rewrite (iter_Reloading _ _ _ _ _ true u Hu H1).
    rewrite andb_false_r. reflexivity. }
  assert (E2 : forall l, dispatch_iter job_result b2 w l s2
                         = Ok (w, mkLoopVars true (unitFilesChanged l))).
  { intros l. rewrite (iter_Reloading _ _ _ _ _ true u Hu H2).
    rewrite andb_false_r. reflexivity. }
  assert (E3 : forall l, dispatch_iter job_result b3 w l s3
                         = if unitFilesChanged l
                           then Ok (set_reloadChans w h, mkLoopVars false false)
                           else Ok (w, mkLoopVars false false)).
  { intros l. rewrite (iter_Reloading _ _ _ _ _ false u Hu H3), Hsend.
    destruct (unitFilesChanged l); reflexivity. }
  repeat split.
  - rewrite (iterate_cons _ _ _ _ _ _ _ (E0 _)), (iterate_cons _ _ _ _ _ _ _ (E1 _)).
    simpl. rewrite E3. reflexivity.
  - rewrite (iterate_cons _ _ _ _ _ _ _ (E1 _)). simpl. rewrite E3. reflexivity.
  - rewrite (iterate_cons _ _ _ _ _ _ _ (E0 _)), (iterate_cons _ _ _ _ _ _ _ (E1 _)),
      (iterate_cons _ _ _ _ _ _ _ (E2 _)).
    simpl. rewrite E3. reflexivity.
Qed.

End Reload.

(** C2 as the spec words it fails: after [UnitFilesChanged] alone the
    reloading flag is false, and a [Reloading(false)] that keeps it false
    sends a reload event all the same. *)
Lemma reload_event_without_true_to_false :
  let before := mkLoopVars false true in
  let after := mkLoopVars false false in
  exists w',
    iterate fourth_body_string [(silent_bus, sig_UnitFilesChanged)]
      subscribed_world loop_start = Ok (subscribed_world, before) /\
    dispatch_iter fourth_body_string silent_bus subscribed_world before
      (sig_Reloading false) = Ok (w', after) /\
    reloadState before = false /\ reloadState after = false /\
    reloadChans (store subscribed_world) !! 0 = Some (mkChan 1 [] 0 []) /\
    reloadChans (store w') !! 0 = Some (mkChan 1 [true] 0 []).
Proof.
  exists (sendSubStateReload subscribed_world).
  repeat split; vm_compute; reflexivity.
Qed.

Lemma reload_event_only_on_Reloading_false_witness :
  is_Reloading false (sig_Reloading false) /\
  unitFilesChanged (mkLoopVars false true) = true /\
  unitFilesChanged loop_start = false /\ reloadState loop_start = false /\
  delivered (reloadChans (store subscribed_world))
    (reloadCh (subscriber subscribed_world)) true
    (reloadChans (store (sendSubStateReload subscribed_world))).
Proof.
  apply (reload_event_only_on_Reloading_false fourth_body_string
           [(silent_bus, sig_UnitFilesChanged)] silent_bus
           subscribed_world subscribed_world (sendSubStateReload subscribed_world)
           (mkLoopVars false true) loop_start (sig_Reloading false)).
  - reflexivity.
  - reflexivity.
  - intros H. apply (f_equal (fun m => m !! 0)) in H. vm_compute in H. discriminate H.
Defined.

Lemma reload_coalescing_witness :
  exists h,
    delivered (reloadChans (store subscribed_world))
      (reloadCh (subscriber subscribed_world)) true h /\
    dispatch fourth_body_string
      (mkSignalQueue [(silent_bus, sig_UnitFilesChanged); (silent_bus, sig_Reloading true);
                      (silent_bus, sig_Reloading false)] true) subscribed_world
      = Returned (set_reloadChans subscribed_world h) loop_start /\
    dispatch fourth_body_string
      (mkSignalQueue [(silent_bus, sig_Reloading true);
                      (silent_bus, sig_Reloading false)] true) subscribed_world
      = Returned subscribed_world loop_start /\
    dispatch fourth_body_string
      (mkSignalQueue [(silent_bus, sig_UnitFilesChanged); (silent_bus, sig_Reloading true);
                      (silent_bus, sig_Reloading true);
                      (silent_bus, sig_Reloading false)] true) subscribed_world
      = Returned (set_reloadChans subscribed_world h) loop_start.
Proof.
  apply (reload_coalescing fourth_body_string subscribed_world 0
           silent_bus silent_bus silent_bus silent_bus
           sig_UnitFilesChanged (sig_Reloading true) (sig_Reloading true)
           (sig_Reloading false)).
  - reflexivity.
  - reflexivity.
  - reflexivity.
  - split; reflexivity.
  - split; reflexivity.
  - split; reflexivity.
Defined.

(** C1 as the spec words it fails: with a reload channel that is ready but
    no update channel installed, which is also the state that
    [RemoveSubStateSubscriber] leaves behind, the signals [UnitFilesChanged,
    Reloading(true), Reloading(false)] send no reload event, and neither do
    the same signals with a second [Reloading(true)]. *)
Lemma no_reload_event_without_updateCh :
  let once := [(silent_bus, sig_UnitFilesChanged); (silent_bus, sig_Reloading true);
               (silent_bus, sig_Reloading false)] in
  let twice := [(silent_bus, sig_UnitFilesChanged); (silent_bus, sig_Reloading true);
                (silent_bus, sig_Reloading true); (silent_bus, sig_Reloading false)] in
  let removed := RemoveSubStateSubscriber subscribed_world in
  ready (reloadChans (store reload_only_world))
    (reloadCh (subscriber reload_only_world)) = true /\
  reloadChans (store reload_only_world) !! 0 = Some (mkChan 1 [] 0 []) /\
  dispatch fourth_body_string (mkSignalQueue once true) reload_only_world
    = Returned reload_only_world loop_start /\
  dispatch fourth_body_string (mkSignalQueue twice true) reload_only_world
    = Returned reload_only_world loop_start /\
  ready (reloadChans (store removed)) (reloadCh (subscriber removed)) = true /\
  reloadChans (store removed) !! 0 = Some (mkChan 1 [] 0 []) /\
  dispatch fourth_body_string (mkSignalQueue once true) removed
    = Returned removed loop_start.
Proof. repeat split; vm_compute; reflexivity. Qed.

Section Jobs.

Variable job_result : Signal -> string.

Lemma sendSubStateUpdate_total (bus : Bus) (w : World) (path : ObjectPath) :
  fetch_ok bus path = true -> exists w', sendSubStateUpdate bus w path = Ok w'.
Proof.
  unfold fetch_ok, sendSubStateUpdate.
  destruct (GetUnitPropertiesFromObjectPath bus path) as [unitProps|err].
  - destruct (unitProps !! "SubState") as [[sub| | | |]|]; try discriminate.
    destruct (unitProps !! "Id") as [[id| | | |]|]; try discriminate.
    intros _. simpl. repeat case_match; eauto.
  - intros _. repeat case_match; eauto.
Qed.

(** A turn of the loop on a well-typed signal returns, and past
    [jobComplete] it leaves the job registry and the job channels alone. *)
Lemma dispatch_iter_total (bus : Bus) (w : World) (l : LoopVars) (signal : Signal) :
  well_typed bus signal = true ->
  exists w' l',
    dispatch_iter job_result bus w l signal = Ok (w', l') /\
    jobs w' = jobs (after_jobComplete job_result w signal) /\
    jobChans (store w') = jobChans (store (after_jobComplete job_result w signal)).
Proof.
  intros Hwt.
  destruct (updateCh (subscriber w)) as [u|] eqn:Hsub.
  2:{ rewrite (dispatch_iter_unsubscribed _ _ _ _ _ Hsub). eauto. }
  rewrite (dispatch_iter_subscribed _ _ _ _ _ u Hsub).
  set (w1 := after_jobComplete job_result w signal).
  assert (Hdeliver : forall p,
             String.eqb p "" || fetch_ok bus p = true ->
             exists w' l',
               (if String.eqb p "" then Ok (w1, l)
                else let! w2 := sendSubStateUpdate bus w1 p in Ok (w2, l))
               = Ok (w', l') /\ jobs w' = jobs w1 /\
               jobChans (store w') = jobChans (store w1)).
  { intros p Hp. destruct (String.eqb p ""); [eauto|]. simpl in Hp.
    destruct (sendSubStateUpdate_total bus w1 p Hp) as [w2 Hs]. rewrite Hs. simpl.
    apply sendSubStateUpdate_frame in Hs as (Hj & _ & _ & Hc). eauto. }
  revert Hwt. unfold well_typed, dispatch_switch.
  destruct (String.eqb (Name signal) JobRemoved).
  { destruct (Body signal !! 2) as [[name| | | |]|]; try discriminate. simpl.
    apply Hdeliver. }
  destruct (String.eqb (Name signal) PropertiesChanged).
  { destruct (Body signal !! 0) as [[iface| | | |]|]; try discriminate. simpl.
    destruct (String.eqb iface UnitInterface); simpl.
    - apply Hdeliver.
    - intros _. eauto. }
  destruct (String.eqb (Name signal) Reloading).
  { destruct (Body signal !! 0) as [[|b| | |]|]; try discriminate. simpl. intros _.
    destruct (unitFilesChanged l && negb b); simpl.
    - destruct (sendSubStateReload_frame w1) as (Hj & _ & _ & _ & Hc). eauto.
    - eauto. }
  destruct (String.eqb (Name signal) UnitFilesChanged); simpl; eauto.
Qed.

Lemma jobComplete_unregistered (w : World) (signal : Signal) :
  jobs w !! Path signal = None -> jobComplete job_result w signal = w.
Proof. intros H. unfold jobComplete. rewrite H. reflexivity. Qed.

(** ** Job completion *)

(** C3.  Register a watch on [p], then let the loop handle a [JobRemoved]
    signal whose origin path is [p]: the turn returns, the channel the watch
    returned holds the signal's result field and nothing else, [p] has no
    entry in the registry, and no other job channel has changed.  The same
    signal handled once more delivers nothing. *)
Theorem watched_job_completes (bus bus' : Bus) (w : World) (l l' : LoopVars)
    (p : ObjectPath) (signal : Signal) :
  Name signal = JobRemoved -> Path signal = p ->
  well_typed bus signal = true -> well_typed bus' signal = true ->
  let w1 := fst (watchJob w p) in
  let ch := snd (watchJob w p) in
  jobChans (store w) !! ch = None /\
  jobs w1 !! p = Some ch /\
  jobChans (store w1) !! ch = Some (make_chan 1) /\
  exists w2 l2,
    dispatch_iter job_result bus w1 l signal = Ok (w2, l2) /\
    jobChans (store w2) !! ch = Some (mkChan 1 [job_result signal] 0 []) /\
    jobs w2 !! p = None /\
    (forall r, r <> ch -> jobChans (store w2) !! r = jobChans (store w) !! r) /\
    exists w3 l3,
      dispatch_iter job_result bus' w2 l' signal = Ok (w3, l3) /\
      jobChans (store w3) = jobChans (store w2) /\ jobs w3 = jobs w2.
Proof.
  intros Hn Hp Hwt Hwt'. simpl.
  set (ch := fresh (dom (jobChans (store w)))).
  set (w1 := set_jobs (set_jobChans w (<[ch := make_chan 1]> (jobChans (store w))))
               (<[p := ch]> (jobs w))).
  assert (Hfresh : jobChans (store w) !! ch = None).
  { apply not_elem_of_dom. apply is_fresh. }
  split; [exact Hfresh|].
  split; [apply lookup_insert_eq|].
  split; [apply lookup_insert_eq|].
  assert (Hjc : after_jobComplete job_result w1 signal =
                set_jobs (set_jobChans w1
                            (<[ch := mkChan 1 [job_result signal] 0 []]>
                               (jobChans (store w1))))
                  (delete p (jobs w1))).
  { unfold after_jobComplete, jobComplete. rewrite Hn, Hp. simpl.
    rewrite lookup_insert_eq. simpl. rewrite lookup_insert_eq. reflexivity. }
  destruct (dispatch_iter_total bus w1 l signal Hwt) as (w2 & l2 & Hit & Hj2 & Hc2).
  rewrite Hjc in Hj2, Hc2. simpl in Hj2, Hc2.
  exists w2, l2. split; [exact Hit|].
  split; [rewrite Hc2; apply lookup_insert_eq|].
  split; [rewrite Hj2; apply lookup_delete_eq|].
  split.
  { intros r Hr. rewrite Hc2. rewrite !lookup_insert_ne by congruence. reflexivity. }
  destruct (dispatch_iter_total bus' w2 l' signal Hwt') as (w3 & l3 & Hit3 & Hj3 & Hc3).
  assert (Hnone : jobs w2 !! Path signal = None).
  { rewrite Hp, Hj2. apply lookup_delete_eq. }
  unfold after_jobComplete in Hj3, Hc3. rewrite Hn in Hj3, Hc3. simpl in Hj3, Hc3.
  rewrite (jobComplete_unregistered w2 signal Hnone) in Hj3, Hc3.
  exists w3, l3. auto.
Qed.

End Jobs.

Lemma watched_job_completes_witness :
  let w1 := fst (watchJob empty_world job_path) in
  let ch := snd (watchJob empty_world job_path) in
  jobChans (store empty_world) !! ch = None /\
  jobs w1 !! job_path = Some ch /\
  jobChans (store w1) !! ch = Some (make_chan 1) /\
  exists w2 l2,
    dispatch_iter fourth_body_string unit_bus w1 loop_start sig_JobRemoved
      = Ok (w2, l2) /\
    jobChans (store w2) !! ch
      = Some (mkChan 1 [fourth_body_string sig_JobRemoved] 0 []) /\
    jobs w2 !! job_path = None /\
    (forall r, r <> ch ->
       jobChans (store w2) !! r = jobChans (store empty_world) !! r) /\
    exists w3 l3,
      dispatch_iter fourth_body_string silent_bus w2 loop_start sig_JobRemoved
        = Ok (w3, l3) /\
      jobChans (store w3) = jobChans (store w2) /\ jobs w3 = jobs w2.
Proof.
  apply (watched_job_completes fourth_body_string unit_bus silent_bus empty_world
           loop_start loop_start job_path sig_JobRemoved).
  - reflexivity.
  - reflexivity.
  - vm_compute. reflexivity.
  - vm_compute. reflexivity.
Defined.

Section Backpressure.

Variable job_result : Signal -> string.

(** With the update channel absent or full, [sendSubStateUpdate] is one
    non-blocking send of some error on the error channel. *)
Lemma sendSubStateUpdate_stalled (bus : Bus) (w : World) (path : ObjectPath) :
  fetch_ok bus path = true ->
  ready (updateChans (store w)) (updateCh (subscriber w)) = false ->
  exists err,
    sendSubStateUpdate bus w path =
    Ok match select_send (errChans (store w)) (errCh (subscriber w)) err with
       | Some h => set_errChans w h
       | None => w
       end.
Proof.
  unfold fetch_ok, sendSubStateUpdate. intros Hf Hr.
  destruct (GetUnitPropertiesFromObjectPath bus path) as [unitProps|err].
  - destruct (unitProps !! "SubState") as [[sub| | | |]|]; try discriminate.
    destruct (unitProps !! "Id") as [[id| | | |]|]; try discriminate.
    simpl. rewrite (select_send_not_ready _ _ _ Hr).
    exists (errors_New "update channel full"). case_match; reflexivity.
  - exists err. case_match; reflexivity.
Qed.

(** For a qualifying notification the subscribed loop body is [jobComplete]
    where it applies, then [sendSubStateUpdate] for a path whose fetch is
    well typed. *)
Lemma dispatch_iter_qualifying (bus : Bus) (w : World) (l : LoopVars)
    (signal : Signal) (u : ref) :
  updateCh (subscriber w) = Some u ->
  qualifying (bus, signal) = true ->
  exists p,
    fetch_ok bus p = true /\
    dispatch_iter job_result bus w l signal =
    let! w' := sendSubStateUpdate bus (after_jobComplete job_result w signal) p in
    Ok (w', l).
Proof.
  intros Hu. rewrite (dispatch_iter_subscribed _ _ _ _ _ u Hu).
  unfold qualifying, dispatch_switch.
  destruct (String.eqb (Name signal) JobRemoved).
  { destruct (Body signal !! 2) as [[name| | | |]|]; try discriminate. simpl.
    destruct (GetUnit bus name) as [p|]; [|discriminate]. simpl.
    destruct (String.eqb p ""); [discriminate|]. simpl. eauto. }
  destruct (String.eqb (Name signal) PropertiesChanged); [|discriminate].
  destruct (Body signal !! 0) as [[iface| | | |]|]; try discriminate. simpl.
  destruct (String.eqb iface UnitInterface); [|discriminate].
  destruct (String.eqb (Path signal) ""); [discriminate|]. simpl. eauto.
Qed.

(** One qualifying notification against a stalled update channel: the error
    channel takes one error if it has room, and nothing moves otherwise. *)
Lemma dispatch_iter_stalled (bus : Bus) (w : World) (l : LoopVars) (signal : Signal)
    (u e : ref) (cu : chan SubStateUpdate) (ce : chan error) :
  updateCh (subscriber w) = Some u ->
  updateChans (store w) !! u = Some cu -> room cu = 0 ->
  errCh (subscriber w) = Some e ->
  errChans (store w) !! e = Some ce ->
  qualifying (bus, signal) = true ->
  exists w' ce',
    dispatch_iter job_result bus w l signal = Ok (w', l) /\
    subscriber w' = subscriber w /\
    updateChans (store w') = updateChans (store w) /\
    errChans (store w') !! e = Some ce' /\
    ch_cap ce' = ch_cap ce /\
    room ce' = room ce - 1 /\
    length (received ce') = length (received ce) + Nat.min 1 (room ce).
Proof.
  intros Hu Hcu Hroom He Hce Hq.
  destruct (dispatch_iter_qualifying bus w l signal u Hu Hq) as (p & Hf & ->).
  destruct (after_jobComplete_frame job_result w signal) as (Hs & Hcu' & Hce' & _).
  set (w1 := after_jobComplete job_result w signal) in *.
  assert (Hnr : ready (updateChans (store w1)) (updateCh (subscriber w1)) = false).
  { rewrite Hs, Hcu', Hu. unfold ready. rewrite Hcu.
    apply bool_decide_eq_false. lia. }
  destruct (sendSubStateUpdate_stalled bus w1 p Hf Hnr) as (err & ->). simpl.
  rewrite Hs, Hce', He. unfold select_send. rewrite Hce.
  destruct (try_send ce err) as [ce'|] eqn:Hsend.
  - apply try_send_Some in Hsend as (Hr & Hc & Hrec).
    exists (set_errChans w1 (<[e := ce']> (errChans (store w)))), ce'. simpl.
    rewrite lookup_insert_eq, Hrec, length_app, Hr. simpl.
    repeat split; try assumption; lia.
  - apply try_send_None in Hsend.
    exists w1, ce. rewrite Hce', Hce, Hsend. repeat split; try assumption; lia.
Qed.

(** ** Errors under backpressure *)

(** C7, as the code has it.  Let the update channel have no buffer and no
    receiver, and let nobody take errors out of the error channel.  After a
    burst of [n] qualifying notifications the update channel is as it was
    and the error channel has received [min n room] more errors, where
    [room] is the number of sends it could take at the start: the errors
    never exceed the room of the error channel, which is one only for a
    channel with room for one. *)
Theorem stalled_errors_bounded_by_room (burst : list (Bus * Signal)) (w : World)
    (l : LoopVars) (u e : ref) (cu : chan SubStateUpdate) (ce : chan error) :
  updateCh (subscriber w) = Some u ->
  updateChans (store w) !! u = Some cu ->
  ch_cap cu = 0 -> ch_recvq cu = 0 ->
  errCh (subscriber w) = Some e ->
  errChans (store w) !! e = Some ce ->
  forallb qualifying burst = true ->
  exists w' ce',
    iterate job_result burst w l = Ok (w', l) /\
    updateChans (store w') = updateChans (store w) /\
    errChans (store w') !! e = Some ce' /\
    ch_cap ce' = ch_cap ce /\
    length (received ce') = length (received ce) + Nat.min (length burst) (room ce) /\
    length (received ce') <= length (received ce) + room ce.
Proof.
  intros Hu Hcu Hcap Hq He Hce Hall.
  assert (Hroom : room cu = 0).
  { unfold room. rewrite Hq, Hcap. reflexivity. }
  clear Hcap Hq.
  enough (H : exists w' ce',
             iterate job_result burst w l = Ok (w', l) /\
             updateChans (store w') = updateChans (store w) /\
             errChans (store w') !! e = Some ce' /\
             ch_cap ce' = ch_cap ce /\
             length (received ce')
             = length (received ce) + Nat.min (length burst) (room ce)).
  { destruct H as (w' & ce' & H1 & H2 & H3 & H4 & H5).
    exists w', ce'. repeat split; try assumption. lia. }
  revert w ce Hu Hcu He Hce.
  induction burst as [|[bus signal] rest IH]; intros w ce Hu Hcu He Hce.
  - exists w, ce. simpl. repeat split; try assumption. lia.
  - simpl in Hall. apply andb_true_iff in Hall as [Hq Hrest].
    destruct (dispatch_iter_stalled bus w l signal u e cu ce Hu Hcu Hroom He Hce Hq)
      as (w1 & ce1 & Hit & Hs1 & Hu1 & Hce1 & Hcap1 & Hroom1 & Hlen1).
    destruct (IH Hrest w1 ce1) as (w' & ce' & Hrun & Hu' & Hce' & Hcap' & Hlen');
      try congruence.
    exists w', ce'. rewrite (iterate_cons job_result _ _ _ _ _ _ _ Hit).
    cbn [length]. repeat split; try assumption; try congruence. lia.
Qed.

End Backpressure.

Lemma two_errors_on_stalled_update_channel :
  exists w',
    iterate fourth_body_string
      [(unit_bus, sig_PropertiesChanged); (unit_bus, sig_PropertiesChanged)]
      stalled_world loop_start = Ok (w', loop_start) /\
    updateChans (store stalled_world) !! 0 = Some (mkChan 0 [] 0 []) /\
    errChans (store stalled_world) !! 0 = Some (mkChan 2 [] 0 []) /\
    errChans (store w') !! 0
      = Some (mkChan 2 [errors_New "update channel full";
                        errors_New "update channel full"] 0 []) /\
    ~ length (received (mkChan 2 [errors_New "update channel full";
                                  errors_New "update channel full"] 0 [])) <= 1.
Proof.
  eexists. split; [vm_compute; reflexivity|].
  repeat split; try (vm_compute; reflexivity).
  simpl. lia.
Qed.

Lemma stalled_errors_bounded_by_room_witness :
  exists w' ce',
    iterate fourth_body_string
      [(unit_bus, sig_PropertiesChanged); (unit_bus, sig_JobRemoved);
       (unit_bus, sig_PropertiesChanged)] stalled_world loop_start
      = Ok (w', loop_start) /\
    updateChans (store w') = updateChans (store stalled_world) /\
    errChans (store w') !! 0 = Some ce' /\
    ch_cap ce' = ch_cap (make_chan 2 : chan error) /\
    length (received ce')
      = length (received (make_chan 2 : chan error))
        + Nat.min 3 (room (make_chan 2 : chan error)) /\
    length (received ce')
      <= length (received (make_chan 2 : chan error))
         + room (make_chan 2 : chan error).
Proof.
  apply (stalled_errors_bounded_by_room fourth_body_string
           [(unit_bus, sig_PropertiesChanged); (unit_bus, sig_JobRemoved);
            (unit_bus, sig_PropertiesChanged)]
           stalled_world loop_start 0 0 (make_chan 0) (make_chan 2)).
  - reflexivity.
  - reflexivity.
  - reflexivity.
  - reflexivity.
  - reflexivity.
  - reflexivity.
  - vm_compute. reflexivity.
Defined.

Section Mutex.

Variable bus : Bus.
Variable path : ObjectPath.
Variables new_updateCh new_errCh new_reloadCh : option ref.

(** Once the delivery holds the mutex, no statement of either goroutine
    changes what the delivery adds up to. *)
Lemma step_delivering (target : Result World) (t : Tid) (c : Conc) :
  delivering bus path target c ->
  delivering bus path target (step bus path new_updateCh new_errCh new_reloadCh t c).
Proof.
  destruct c as [w locked pc spc].
  unfold delivering, step, deliver_step, set_step. simpl.
  destruct pc; simpl; try contradiction; try (intros H; exact H).
  - (* D_Fetch *)
    intros (-> & Hs & Hrest). destruct t; simpl.
    + unfold sendSubStateUpdate in Hrest.
      destruct (GetUnitPropertiesFromObjectPath bus path); simpl; auto.
    + destruct Hs as [-> | ->]; simpl; auto.
  - (* D_SendErr *)
    intros (-> & Hs & Hrest). destruct t; simpl.
    + destruct (select_send _ _ err); simpl; auto.
    + destruct Hs as [-> | ->]; simpl; auto.
  - (* D_Props *)
    intros (-> & Hs & Hrest). destruct t; simpl.
    + destruct (assert_string (unitProps !! "SubState")); simpl in *; [|auto].
      destruct (assert_string (unitProps !! "Id")); simpl in *; auto.
    + destruct Hs as [-> | ->]; simpl; auto.
  - (* D_SendUpdate *)
    intros (-> & Hs & Hrest). destruct t; simpl.
    + destruct (select_send _ _ update); simpl; auto.
    + destruct Hs as [-> | ->]; simpl; auto.
  - (* D_SendFull *)
    intros (-> & Hs & Hrest). destruct t; simpl.
    + destruct (select_send _ _ (errors_New _)); simpl; auto.
    + destruct Hs as [-> | ->]; simpl; auto.
  - (* D_Unlock *)
    intros (-> & Hs & Hrest). destruct t; simpl.
    + exists w. auto.
    + destruct Hs as [-> | ->]; simpl; auto.
  - (* D_Done *)
    intros (w1 & Ht & Hst & Hj). destruct t; simpl.
    + eauto.
    + destruct spc, locked; simpl; eauto.
Qed.

Lemma exec_delivering (target : Result World) (sched : list Tid) (c : Conc) :
  delivering bus path target c ->
  delivering bus path target (exec bus path new_updateCh new_errCh new_reloadCh sched c).
Proof.
  revert c. induction sched as [|t sched IH]; intros c H; simpl.
  - exact H.
  - apply IH, step_delivering, H.
Qed.

(** A delivery that holds the mutex is never kept waiting: each of its
    turns takes it one statement further. *)
Lemma step_progress (target : Result World) (t : Tid) (c : Conc) :
  delivering bus path target c ->
  steps_left (c_deliver (step bus path new_updateCh new_errCh new_reloadCh t c))
  <= steps_left (c_deliver c) - deliver_turns [t].
Proof.
  destruct c as [w locked pc spc].
  unfold delivering, step, deliver_step, set_step. simpl.
  destruct pc; simpl; try contradiction; destruct t; simpl;
    try (intros _; lia);
    try (intros (_ & [-> | ->] & _); simpl; lia);
    try (intros _; repeat case_match; simpl; lia).
Qed.

Lemma exec_progress (target : Result World) (sched : list Tid) (c : Conc) :
  delivering bus path target c ->
  steps_left (c_deliver c) <= deliver_turns sched ->
  steps_left (c_deliver (exec bus path new_updateCh new_errCh new_reloadCh sched c)) = 0.
Proof.
  revert c. induction sched as [|t sched IH]; intros c H Hle; simpl in *.
  - lia.
  - apply IH; [apply step_delivering, H|].
    pose proof (step_progress target t c H) as Hp.
    destruct t; simpl in *; lia.
Qed.

Lemma steps_left_0 (pc : DeliverPc) :
  steps_left pc = 0 -> pc = D_Done \/ pc = D_Crashed.
Proof. destruct pc; simpl; auto; discriminate. Qed.

(** Whichever goroutine takes the mutex first keeps the other one out until
    it is done: the delivery runs on the subscriber as it was before
    [SetSubStateSubscriber], or as it is after, never in between. *)
Lemma step_setting (w : World) (t : Tid) (c : Conc) :
  let old := sendSubStateUpdate bus w path in
  let new := sendSubStateUpdate bus
               (SetSubStateSubscriber w new_updateCh new_errCh new_reloadCh) path in
  setting w new_updateCh new_errCh new_reloadCh c \/
  delivering bus path old c \/ delivering bus path new c ->
  let c' := step bus path new_updateCh new_errCh new_reloadCh t c in
  setting w new_updateCh new_errCh new_reloadCh c' \/
  delivering bus path old c' \/ delivering bus path new c'.
Proof.
  intros old new [Hset | [Hd | Hd]] c'; subst c'.
  2:{ right. left. apply step_delivering, Hd. }
  2:{ right. right. apply step_delivering, Hd. }
  destruct c as [[j s st] locked pc spc]. destruct w as [j0 s0 st0].
  unfold setting in Hset. simpl in Hset.
  destruct Hset as (-> & -> & -> & Hs).
  unfold step, deliver_step, set_step. simpl.
  destruct t; simpl.
  - (* the delivery asks for the mutex *)
    destruct spc; destruct Hs as [-> ->]; simpl.
    + right. left. unfold delivering. simpl. auto.
    + left. unfold setting. simpl. auto.
    + left. unfold setting. simpl. auto.
    + left. unfold setting. simpl. auto.
    + left. unfold setting. simpl. auto.
    + right. right. unfold delivering. simpl. auto.
  - (* one statement of SetSubStateSubscriber *)
    left. destruct spc; destruct Hs as [-> ->]; unfold setting; simpl; auto.
Qed.

Lemma exec_setting (w : World) (sched : list Tid) (c : Conc) :
  let old := sendSubStateUpdate bus w path in
  let new := sendSubStateUpdate bus
               (SetSubStateSubscriber w new_updateCh new_errCh new_reloadCh) path in
  setting w new_updateCh new_errCh new_reloadCh c \/
  delivering bus path old c \/ delivering bus path new c ->
  let c' := exec bus path new_updateCh new_errCh new_reloadCh sched c in
  setting w new_updateCh new_errCh new_reloadCh c' \/
  delivering bus path old c' \/ delivering bus path new c'.
Proof.
  revert c. induction sched as [|t sched IH]; intros c old new H; simpl.
  - exact H.
  - apply IH, (step_setting w t c H).
Qed.

(** ** A subscriber installed during a delivery *)

(** C9.  Let the delivery take the subscriber mutex before
    [SetSubStateSubscriber] does, so that the new subscriber arrives while
    the delivery is in flight.  Whatever the order in which the two
    goroutines then run, a delivery that has returned has done to the
    channels exactly what [sendSubStateUpdate] does alone on the old
    subscriber; it panics only if that one does; and it is over after five
    turns, never waiting for the other goroutine.  Without the head start
    the delivery is the one on the old subscriber or the one on the new
    subscriber, so the update and the error channel it uses always belong
    to the same subscriber. *)
Theorem in_flight_delivery_uses_old_channels (w : World) (sched : list Tid) :
  let start := mkConc w false D_Lock S_Lock in
  let in_flight := exec bus path new_updateCh new_errCh new_reloadCh (Deliverer :: sched) start in
  let any := exec bus path new_updateCh new_errCh new_reloadCh sched start in
  let new_w := SetSubStateSubscriber w new_updateCh new_errCh new_reloadCh in
  (c_deliver in_flight = D_Done ->
   exists w1,
     sendSubStateUpdate bus w path = Ok w1 /\
     store (c_world in_flight) = store w1) /\
  (c_deliver in_flight = D_Crashed -> sendSubStateUpdate bus w path = Panic) /\
  (5 <= deliver_turns sched ->
   c_deliver in_flight = D_Done \/ c_deliver in_flight = D_Crashed) /\
  (c_deliver any = D_Done ->
   (exists w1,
      sendSubStateUpdate bus w path = Ok w1 /\ store (c_world any) = store w1) \/
   (exists w1,
      sendSubStateUpdate bus new_w path = Ok w1 /\ store (c_world any) = store w1)).
Proof.
  intros start in_flight any new_w.
  assert (Hfirst : delivering bus path (sendSubStateUpdate bus w path)
                     (step bus path new_updateCh new_errCh new_reloadCh Deliverer start)).
  { unfold delivering. simpl. auto. }
  assert (Hin : delivering bus path (sendSubStateUpdate bus w path) in_flight).
  { apply (exec_delivering _ sched _ Hfirst). }
  split; [|split; [|split]].
  - intros Hdone. unfold delivering in Hin. rewrite Hdone in Hin.
    destruct Hin as (w1 & H1 & H2 & _). eauto.
  - intros Hcr. unfold delivering in Hin. rewrite Hcr in Hin. exact Hin.
  - intros Hturns. apply steps_left_0.
    apply (exec_progress _ sched _ Hfirst). simpl. exact Hturns.
  - intros Hdone.
    assert (Hany : setting w new_updateCh new_errCh new_reloadCh any \/
                   delivering bus path (sendSubStateUpdate bus w path) any \/
                   delivering bus path (sendSubStateUpdate bus new_w path) any).
    { apply exec_setting. left. unfold setting. simpl. auto. }
    destruct Hany as [(Hl & _) | [Hd | Hd]].
    + rewrite Hdone in Hl. discriminate.
    + left. unfold delivering in Hd. rewrite Hdone in Hd.
      destruct Hd as (w1 & H1 & H2 & _). eauto.
    + right. unfold delivering in Hd. rewrite Hdone in Hd.
      destruct Hd as (w1 & H1 & H2 & _). eauto.
Qed.

End Mutex.

Lemma in_flight_delivery_uses_old_channels_witness :
  let sched := [Setter; Deliverer; Setter; Deliverer; Deliverer; Setter;
                Deliverer; Setter; Setter; Setter; Setter; Setter] in
  let in_flight :=
    exec unit_bus unit_path (Some 1) (Some 1) (Some 1) (Deliverer :: sched)
      (mkConc subscribed_world false D_Lock S_Lock) in
  c_deliver in_flight = D_Done /\
  c_set in_flight = S_Done /\
  subscriber (c_world in_flight) = mkSubscriber (Some 1) (Some 1) (Some 1) /\
  exists w1,
    sendSubStateUpdate unit_bus subscribed_world unit_path = Ok w1 /\
    store (c_world in_flight) = store w1.
Proof.
  split; [vm_compute; reflexivity|].
  split; [vm_compute; reflexivity|].
  split; [vm_compute; reflexivity|].
  apply (proj1 (in_flight_delivery_uses_old_channels unit_bus unit_path
                  (Some 1) (Some 1) (Some 1) subscribed_world
                  [Setter; Deliverer; Setter; Deliverer; Deliverer; Setter;
                   Deliverer; Setter; Setter; Setter; Setter; Setter])).
  vm_compute. reflexivity.
Defined.

(** * Further properties of the dispatch loop *)

Section LoopEdges.

Variable job_result : Signal -> string.

(** How a turn of the loop can leave the world: as [jobComplete] left it,
    or after one [sendSubStateReload], or after one [sendSubStateUpdate]. *)
Lemma dispatch_iter_cases (bus : Bus) (w w' : World) (l l' : LoopVars)
    (signal : Signal) :
  dispatch_iter job_result bus w l signal = Ok (w', l') ->
  let w1 := after_jobComplete job_result w signal in
  w' = w1 \/ w' = sendSubStateReload w1 \/
  exists p, sendSubStateUpdate bus w1 p = Ok w'.
Proof.
  intros H w1. subst w1.
  destruct (updateCh (subscriber w)) as [u|] eqn:Hsub.
  2:{ rewrite (dispatch_iter_unsubscribed _ _ _ _ _ Hsub) in H.
      simplify_eq. auto. }
  rewrite (dispatch_iter_subscribed _ _ _ _ _ u Hsub) in H.
  destruct (dispatch_switch bus (after_jobComplete job_result w signal) l signal)
    as [[[w2 l2] flow]|] eqn:Hsw; simpl in H; [|discriminate].
  assert (Hw2 : w2 = after_jobComplete job_result w signal \/
                w2 = sendSubStateReload (after_jobComplete job_result w signal) /\
                flow = Continue).
  { clear H. revert Hsw. unfold dispatch_switch.
    repeat case_match;
      try (destruct (assert_string _); simpl; [|discriminate]);
      try (destruct (assert_bool _); simpl; [|discriminate]);
      repeat case_match; intros [= <- <- <-]; auto. }
  destruct flow as [|p].
  - simplify_eq. destruct Hw2 as [->|[-> _]]; auto.
  - destruct Hw2 as [->|[_ Hc]]; [|discriminate].
    destruct (String.eqb p "").
    + simplify_eq. auto.
    + destruct (sendSubStateUpdate _ _ p) as [w3|] eqn:Hs; simpl in H; [|discriminate].
      simplify_eq. eauto.
Qed.

(** The loop never writes the subscriber slot. *)
Lemma dispatch_iter_subscriber (bus : Bus) (w w' : World) (l l' : LoopVars)
    (signal : Signal) :
  dispatch_iter job_result bus w l signal = Ok (w', l') ->
  subscriber w' = subscriber w.
Proof.
  intros H. destruct (after_jobComplete_frame job_result w signal) as (Hs & _).
  destruct (dispatch_iter_cases _ _ _ _ _ _ H) as [->|[->|[p Hp]]].
  - exact Hs.
  - destruct (sendSubStateReload_frame (after_jobComplete job_result w signal))
      as (_ & Hs' & _). congruence.
  - apply sendSubStateUpdate_frame in Hp as (_ & Hs' & _). congruence.
Qed.

(** X1.  A signal whose name is none of the four that the loop knows is
    dropped, whatever its body and whoever subscribes: the turn returns
    with the world and the loop variables as they were. *)
Theorem other_signals_are_ignored (bus : Bus) (w : World) (l : LoopVars)
    (signal : Signal) :
  Name signal <> JobRemoved -> Name signal <> PropertiesChanged ->
  Name signal <> Reloading -> Name signal <> UnitFilesChanged ->
  dispatch_iter job_result bus w l signal = Ok (w, l).
Proof.
  intros Hj Hp Hr Hf.
  destruct (updateCh (subscriber w)) as [u|] eqn:Hsub.
  - rewrite (dispatch_iter_subscribed _ _ _ _ _ u Hsub).
    rewrite (after_jobComplete_other job_result w signal Hj).
    unfold dispatch_switch.
    destruct (String.eqb_spec (Name signal) JobRemoved); [contradiction|].
    destruct (String.eqb_spec (Name signal) PropertiesChanged); [contradiction|].
    destruct (String.eqb_spec (Name signal) Reloading); [contradiction|].
    destruct (String.eqb_spec (Name signal) UnitFilesChanged); [contradiction|].
    reflexivity.
  - rewrite (dispatch_iter_unsubscribed _ _ _ _ _ Hsub).
    rewrite (after_jobComplete_other job_result w signal Hj). reflexivity.
Qed.

Lemma sendSubStateUpdate_ill_typed (bus : Bus) (w : World) (path : ObjectPath) :
  fetch_ok bus path = false -> sendSubStateUpdate bus w path = Panic.
Proof.
  unfold fetch_ok, sendSubStateUpdate.
  destruct (GetUnitPropertiesFromObjectPath bus path) as [unitProps|err];
    [|discriminate].
  destruct (unitProps !! "SubState") as [[sub| | | |]|]; try reflexivity.
  destruct (unitProps !! "Id") as [[id| | | |]|]; try reflexivity.
  discriminate.
Qed.

(** X3.  [sendSubStateUpdate] panics whenever the fetch succeeds with a
    property map in which ["SubState"] or ["Id"] is missing or is not a
    string, whatever the subscriber and its channels are. *)
Theorem sendSubStateUpdate_panics_on_ill_typed_map (bus : Bus) (w : World)
    (path : ObjectPath) (unitProps : gmap string Value) :
  GetUnitPropertiesFromObjectPath bus path = Success unitProps ->
  is_string (unitProps !! "SubState") && is_string (unitProps !! "Id") = false ->
  sendSubStateUpdate bus w path = Panic.
Proof.
  intros Hfetch Hill. apply sendSubStateUpdate_ill_typed.
  unfold fetch_ok. rewrite Hfetch. exact Hill.
Qed.

(** X2.  With an update channel installed, a signal that does not have the
    types its branch asserts makes the goroutine panic.  The switch panics
    on a [JobRemoved] whose body has no string as third element.  The turn
    panics on a [PropertiesChanged] without a string as first body element,
    on a [Reloading] without a boolean as first, and on a unit's
    [PropertiesChanged] for which the bus returns a property map without a
    string ["SubState"] or ["Id"]. *)
Theorem ill_typed_signal_panics (bus : Bus) (w : World) (l : LoopVars)
    (signal : Signal) (u : ref) :
  updateCh (subscriber w) = Some u ->
  (Name signal = JobRemoved -> is_string (Body signal !! 2) = false ->
   dispatch_switch bus w l signal = Panic) /\
  (Name signal <> JobRemoved -> well_typed bus signal = false ->
   dispatch_iter job_result bus w l signal = Panic).
Proof.
  intros Hu. split.
  - intros Hn Hb. rewrite (switch_JobRemoved _ _ _ _ Hn).
    destruct (Body signal !! 2) as [[name| | | |]|]; try reflexivity. discriminate.
  - intros Hn Hwt.
    rewrite (dispatch_iter_subscribed _ _ _ _ _ u Hu).
    rewrite (after_jobComplete_other job_result w signal Hn).
    revert Hwt. unfold well_typed, dispatch_switch.
    destruct (String.eqb_spec (Name signal) JobRemoved); [contradiction|].
    destruct (String.eqb (Name signal) PropertiesChanged).
    { destruct (Body signal !! 0) as [[iface| | | |]|]; try reflexivity. simpl.
      destruct (String.eqb iface UnitInterface); simpl; [|discriminate].
      destruct (String.eqb (Path signal) ""); simpl; [discriminate|].
      intros Hf. rewrite (sendSubStateUpdate_ill_typed bus w _ Hf). reflexivity. }
    destruct (String.eqb (Name signal) Reloading).
    { destruct (Body signal !! 0) as [[|b| | |]|]; try reflexivity. discriminate. }
    discriminate.
Qed.

(** X4.  A reload event that cannot be delivered is lost.  When a
    [Reloading(false)] signal meets [unitFilesChanged] set and a reload
    channel that is absent or full, the turn changes no channel and still
    resets the variable; a later [Reloading(false)] then sends nothing,
    whatever the state of the channels by then. *)
Theorem undeliverable_reload_event_is_lost (bus bus' : Bus) (w w2 : World)
    (l : LoopVars) (u u2 : ref) (signal signal2 : Signal) :
  updateCh (subscriber w) = Some u ->
  ready (reloadChans (store w)) (reloadCh (subscriber w)) = false ->
  unitFilesChanged l = true ->
  is_Reloading false signal ->
  updateCh (subscriber w2) = Some u2 ->
  is_Reloading false signal2 ->
  dispatch_iter job_result bus w l signal = Ok (w, mkLoopVars false false) /\
  dispatch_iter job_result bus' w2 (mkLoopVars false false) signal2
    = Ok (w2, mkLoopVars false false).
Proof.
  intros Hu Hr Hufc Hs Hu2 Hs2. split.
  - rewrite (iter_Reloading _ _ _ _ _ false u Hu Hs), Hufc. simpl.
    unfold sendSubStateReload. rewrite (select_send_not_ready _ _ _ Hr). reflexivity.
  - rewrite (iter_Reloading _ _ _ _ _ false u2 Hu2 Hs2). reflexivity.
Qed.

(** [unitFilesChanged] is set by a [UnitFilesChanged] signal only. *)
Lemma dispatch_iter_unitFilesChanged (bus : Bus) (w w' : World) (l l' : LoopVars)
    (signal : Signal) :
  dispatch_iter job_result bus w l signal = Ok (w', l') ->
  unitFilesChanged l' = true ->
  unitFilesChanged l = true \/ Name signal = UnitFilesChanged.
Proof.
  destruct (updateCh (subscriber w)) as [u|] eqn:Hsub.
  2:{ rewrite (dispatch_iter_unsubscribed _ _ _ _ _ Hsub). intros [= <- <-]. auto. }
  rewrite (dispatch_iter_subscribed _ _ _ _ _ u Hsub).
  unfold dispatch_switch.
  destruct (String.eqb_spec (Name signal) JobRemoved).
  { destruct (assert_string _); simpl; [|discriminate].
    case_match; [intros [= <- <-]; auto|].
    destruct (sendSubStateUpdate _ _ _); simpl; [|discriminate].
    intros [= <- <-]. auto. }
  destruct (String.eqb_spec (Name signal) PropertiesChanged).
  { destruct (assert_string _); simpl; [|discriminate].
    case_match; [intros [= <- <-]; auto|].
    destruct (sendSubStateUpdate _ _ _); simpl; [|discriminate].
    intros [= <- <-]. auto. }
  destruct (String.eqb_spec (Name signal) Reloading).
  { destruct (assert_bool _) as [b|]; simpl; [|discriminate].
    destruct (unitFilesChanged l), b; simpl; intros [= <- <-]; auto. }
  destruct (String.eqb_spec (Name signal) UnitFilesChanged); simpl;
    intros [= <- <-]; auto.
Qed.

Lemma is_Reloading_false_b_true (bus : Bus) (signal : Signal) :
  is_Reloading false signal -> is_Reloading_false_b (bus, signal) = true.
Proof.
  intros [Hn Hb]. unfold is_Reloading_false_b. simpl. rewrite Hn, Hb. reflexivity.
Qed.

(** One turn of the loop, seen from the reload channel. *)
Lemma dispatch_iter_reload_count (bus : Bus) (w w' : World) (l l' : LoopVars)
    (signal : Signal) (r : ref) (c : chan bool) :
  dispatch_iter job_result bus w l signal = Ok (w', l') ->
  reloadCh (subscriber w) = Some r ->
  reloadChans (store w) !! r = Some c ->
  exists c',
    reloadChans (store w') !! r = Some c' /\
    length (received c') + Nat.b2n (unitFilesChanged l')
    <= length (received c) + Nat.b2n (unitFilesChanged l)
       + Nat.b2n (is_UnitFilesChanged_b (bus, signal)) /\
    length (received c')
    <= length (received c) + Nat.b2n (is_Reloading_false_b (bus, signal)).
Proof.
  intros Hit Hr Hc.
  destruct (dispatch_iter_reloadChans _ _ _ _ _ _ _ Hit)
    as [Heq|(Hs & Hufc & -> & ->)].
  - exists c. rewrite Heq. split; [exact Hc|]. split; [|lia].
    destruct (unitFilesChanged l') eqn:Hl'; simpl; [|lia].
    destruct (dispatch_iter_unitFilesChanged _ _ _ _ _ _ Hit Hl') as [-> | Hn].
    + simpl. lia.
    + unfold is_UnitFilesChanged_b. simpl. rewrite Hn. simpl. lia.
  - rewrite (is_Reloading_false_b_true bus signal Hs), Hufc. simpl.
    unfold sendSubStateReload. rewrite Hr. unfold select_send. rewrite Hc.
    destruct (try_send c true) as [c'|] eqn:Hsend.
    + exists c'. simpl. rewrite lookup_insert_eq.
      apply try_send_Some in Hsend as (_ & _ & ->). rewrite length_app. simpl.
      split; [reflexivity|]. lia.
    + exists c. split; [exact Hc|]. lia.
Qed.

(** X5.  In any run of the loop the reload channel receives at most one
    event for each [UnitFilesChanged] signal handled, one more if
    [unitFilesChanged] was set at the start, and at most one for each
    [Reloading(false)] signal handled. *)
Theorem reload_events_bounded (pending : list (Bus * Signal)) (w w' : World)
    (l l' : LoopVars) (r : ref) (c : chan bool) :
  iterate job_result pending w l = Ok (w', l') ->
  reloadCh (subscriber w) = Some r ->
  reloadChans (store w) !! r = Some c ->
  exists c',
    reloadChans (store w') !! r = Some c' /\
    length (received c')
    <= length (received c) + Nat.b2n (unitFilesChanged l)
       + how_many is_UnitFilesChanged_b pending /\
    length (received c')
    <= length (received c) + how_many is_Reloading_false_b pending.
Proof.
  enough (H : iterate job_result pending w l = Ok (w', l') ->
              reloadCh (subscriber w) = Some r ->
              reloadChans (store w) !! r = Some c ->
              exists c',
                reloadChans (store w') !! r = Some c' /\
                length (received c') + Nat.b2n (unitFilesChanged l')
                <= length (received c) + Nat.b2n (unitFilesChanged l)
                   + how_many is_UnitFilesChanged_b pending /\
                length (received c')
                <= length (received c) + how_many is_Reloading_false_b pending).
  { intros H1 H2 H3. destruct (H H1 H2 H3) as (c' & Hc' & Hu & Hf).
    exists c'. repeat split; try assumption. lia. }
  revert w l c. unfold how_many.
  induction pending as [|[bus signal] rest IH]; intros w l c Hrun Hr Hc.
  - simpl in Hrun. injection Hrun as <- <-. exists c. simpl. split; [exact Hc|]. lia.
  - simpl in Hrun.
    destruct (dispatch_iter job_result bus w l signal) as [[w1 l1]|] eqn:Hit;
      simpl in Hrun; [|discriminate].
    destruct (dispatch_iter_reload_count _ _ _ _ _ _ r c Hit Hr Hc)
      as (c1 & Hc1 & Hu1 & Hf1).
    pose proof (dispatch_iter_subscriber _ _ _ _ _ _ Hit) as Hsub.
    destruct (IH w1 l1 c1 Hrun) as (c' & Hc' & Hu' & Hf'); [congruence|exact Hc1|].
    exists c'. split; [exact Hc'|]. simpl.
    destruct (is_UnitFilesChanged_b (bus, signal)),
             (is_Reloading_false_b (bus, signal)); simpl in *; lia.
Qed.

End LoopEdges.

(** ** What a run does to the subscriber's channels *)

Lemma grows_refl {A} (c : chan A) : grows c c.
Proof. unfold grows. auto. Qed.

Lemma grows_trans {A} (c1 c2 c3 : chan A) :
  grows c1 c2 -> grows c2 c3 -> grows c1 c3.
Proof.
  intros (Hc & Hp & Hb) (Hc' & Hp' & Hb'). unfold grows.
  split; [congruence|]. split; [etrans; eassumption|]. auto.
Qed.

Lemma try_send_grows {A} (c c' : chan A) (v : A) :
  try_send c v = Some c' -> grows c c'.
Proof.
  intros H. destruct (try_send_Some c c' v H) as (_ & Hcap & Hrec).
  unfold grows. split; [exact Hcap|]. split.
  - rewrite Hrec. apply prefix_app_r. reflexivity.
  - revert H. unfold try_send.
    destruct (ch_recvq c) as [|n], (ch_buf c) as [|b buf] eqn:Hbuf; simpl;
      try (destruct (Nat.ltb_spec 0 (ch_cap c)); [|discriminate]);
      try (destruct (Nat.ltb_spec (S (length buf)) (ch_cap c)); [|discriminate]);
      intros [= <-] _; simpl; rewrite ?length_app; simpl; lia.
Qed.

Lemma store_grows_refl {A} (h : gmap ref (chan A)) : store_grows h h.
Proof. intros r c Hc. exists c. split; [exact Hc|apply grows_refl]. Qed.

Lemma store_grows_trans {A} (h1 h2 h3 : gmap ref (chan A)) :
  store_grows h1 h2 -> store_grows h2 h3 -> store_grows h1 h3.
Proof.
  intros H12 H23 r c Hc.
  destruct (H12 r c Hc) as (c2 & Hc2 & Hg2).
  destruct (H23 r c2 Hc2) as (c3 & Hc3 & Hg3).
  exists c3. split; [exact Hc3|]. exact (grows_trans _ _ _ Hg2 Hg3).
Qed.

Lemma select_send_grows {A} (h h' : gmap ref (chan A)) (ch : option ref) (v : A) :
  select_send h ch v = Some h' -> store_grows h h'.
Proof.
  intros H. apply select_send_Some in H as (r & c & c' & _ & Hc & Hs & ->).
  intros r0 c0 Hc0. destruct (decide (r = r0)) as [<-|Hne].
  - exists c'. rewrite lookup_insert_eq. split; [reflexivity|].
    assert (c0 = c) as -> by congruence. exact (try_send_grows _ _ _ Hs).
  - exists c0. rewrite lookup_insert_ne by exact Hne.
    split; [exact Hc0|apply grows_refl].
Qed.

Lemma sendSubStateUpdate_grows (bus : Bus) (w w' : World) (path : ObjectPath) :
  sendSubStateUpdate bus w path = Ok w' ->
  store_grows (updateChans (store w)) (updateChans (store w')) /\
  store_grows (errChans (store w)) (errChans (store w')).
Proof.
  unfold sendSubStateUpdate.
  destruct (GetUnitPropertiesFromObjectPath bus path) as [unitProps|err].
  - destruct (assert_string (unitProps !! "SubState")) as [sub|]; [|discriminate].
    destruct (assert_string (unitProps !! "Id")) as [id|]; [|discriminate].
    simpl.
    destruct (select_send (updateChans _) _ _) as [hu|] eqn:Hu.
    { intros [= <-]. simpl. split; [exact (select_send_grows _ _ _ _ Hu)|].
      apply store_grows_refl. }
    destruct (select_send (errChans _) _ _) as [he|] eqn:He; intros [= <-]; simpl.
    + split; [apply store_grows_refl|exact (select_send_grows _ _ _ _ He)].
    + split; apply store_grows_refl.
  - destruct (select_send (errChans _) _ _) as [he|] eqn:He; intros [= <-]; simpl.
    + split; [apply store_grows_refl|exact (select_send_grows _ _ _ _ He)].
    + split; apply store_grows_refl.
Qed.

Lemma sendSubStateReload_grows (w : World) :
  store_grows (reloadChans (store w)) (reloadChans (store (sendSubStateReload w))).
Proof.
  unfold sendSubStateReload.
  destruct (select_send (reloadChans _) _ _) as [h|] eqn:Hs; simpl.
  - exact (select_send_grows _ _ _ _ Hs).
  - apply store_grows_refl.
Qed.

Section Runs.

Variable job_result : Signal -> string.

Lemma dispatch_iter_grows (bus : Bus) (w w' : World) (l l' : LoopVars)
    (signal : Signal) :
  dispatch_iter job_result bus w l signal = Ok (w', l') ->
  store_grows (updateChans (store w)) (updateChans (store w')) /\
  store_grows (errChans (store w)) (errChans (store w')) /\
  store_grows (reloadChans (store w)) (reloadChans (store w')).
Proof.
  intros H.
  destruct (after_jobComplete_frame job_result w signal) as (_ & Hu & He & Hr).
  destruct (dispatch_iter_cases _ _ _ _ _ _ _ H) as [->|[->|[p Hp]]].
  - rewrite Hu, He, Hr. repeat split; apply store_grows_refl.
  - destruct (sendSubStateReload_frame (after_jobComplete job_result w signal))
      as (_ & _ & Hu' & He' & _).
    rewrite Hu', He', Hu, He, <- Hr.
    repeat split; try apply store_grows_refl. apply sendSubStateReload_grows.
  - destruct (sendSubStateUpdate_grows _ _ _ _ Hp) as (Gu & Ge).
    apply sendSubStateUpdate_frame in Hp as (_ & _ & Hr' & _).
    rewrite Hu in Gu. rewrite He in Ge. rewrite Hr', Hr.
    repeat split; try assumption. apply store_grows_refl.
Qed.

(** X6.  Over any run of the loop the subscriber slot is never written and
    the update, error and reload channels only grow: each channel is still
    there with its capacity, what it had received is still there in front
    of what it has received since, and a buffer that was within the
    capacity of its channel is still within it. *)
Theorem run_only_appends (pending : list (Bus * Signal)) (w w' : World)
    (l l' : LoopVars) :
  iterate job_result pending w l = Ok (w', l') ->
  subscriber w' = subscriber w /\
  store_grows (updateChans (store w)) (updateChans (store w')) /\
  store_grows (errChans (store w)) (errChans (store w')) /\
  store_grows (reloadChans (store w)) (reloadChans (store w')).
Proof.
  revert w l. induction pending as [|[bus signal] rest IH]; intros w l Hrun.
  - simpl in Hrun. injection Hrun as <- <-.
    repeat split; apply store_grows_refl.
  - simpl in Hrun.
    destruct (dispatch_iter job_result bus w l signal) as [[w1 l1]|] eqn:Hit;
      simpl in Hrun; [|discriminate].
    destruct (dispatch_iter_grows _ _ _ _ _ _ Hit) as (Gu & Ge & Gr).
    pose proof (dispatch_iter_subscriber _ _ _ _ _ _ _ Hit) as Hs.
    destruct (IH w1 l1 Hrun) as (Hs' & Gu' & Ge' & Gr').
    split; [congruence|].
    repeat split; eapply store_grows_trans; eassumption.
Qed.

Lemma iterate_unsubscribed (pending : list (Bus * Signal)) (w : World)
    (l : LoopVars) :
  updateCh (subscriber w) = None ->
  exists w',
    iterate job_result pending w l = Ok (w', l) /\
    subscriber w' = subscriber w /\
    updateChans (store w') = updateChans (store w) /\
    errChans (store w') = errChans (store w) /\
    reloadChans (store w') = reloadChans (store w).
Proof.
  revert w. induction pending as [|[bus signal] rest IH]; intros w Hu.
  - exists w. simpl. auto.
  - destruct (after_jobComplete_frame job_result w signal) as (Hs & Hu1 & He1 & Hr1).
    destruct (IH (after_jobComplete job_result w signal)) as (w' & Hrun & Hs' & Hu' & He' & Hr').
    { congruence. }
    exists w'. simpl. rewrite (dispatch_iter_unsubscribed _ _ _ _ _ Hu). simpl.
    repeat split; congruence.
Qed.

(** X7.  While no update channel is installed the loop is silent and
    safe, even with an error and a reload channel in the slot: whatever the
    signals and their bodies, the run does not panic, the loop variables
    stay as they are, and the subscriber slot and the update, error and
    reload channels are unchanged. *)
Theorem unsubscribed_run_is_silent (pending : list (Bus * Signal)) (w : World)
    (l : LoopVars) :
  updateCh (subscriber w) = None ->
  exists w',
    iterate job_result pending w l = Ok (w', l) /\
    dispatch_loop job_result pending true w l = Returned w' l /\
    subscriber w' = subscriber w /\
    updateChans (store w') = updateChans (store w) /\
    errChans (store w') = errChans (store w) /\
    reloadChans (store w') = reloadChans (store w).
Proof.
  intros Hu.
  destruct (iterate_unsubscribed pending w l Hu) as (w' & Hrun & Hs & Hc).
  exists w'. split; [exact Hrun|]. split.
  - rewrite dispatch_loop_iterate, Hrun. reflexivity.
  - split; [exact Hs|exact Hc].
Qed.

End Runs.

(** * Properties of the connection *)

Set Warnings "-clear-no-such-hyp".

Lemma close_just_opened (open : gset conn_id) (conn : conn_id) :
  conn ∉ open -> (open ∪ {[conn]}) ∖ {[conn]} = open.
Proof. set_solver. Qed.

Lemma open_two (open : gset conn_id) (c1 c2 : conn_id) :
  open ∪ {[c1]} ∪ {[c2]} = open ∪ {[c1; c2]}.
Proof. set_solver. Qed.

Lemma close_two (open : gset conn_id) (c1 c2 : conn_id) :
  c1 ∉ open -> c2 ∉ open ->
  (open ∪ {[c1; c2]}) ∖ {[c1]} ∖ {[c2]} = open.
Proof. set_solver. Qed.

Lemma fresh_second (open : gset conn_id) (c1 c2 : conn_id) :
  c2 ∉ open ∪ {[c1]} -> (c2 ∉ open) /\ c1 <> c2.
Proof. set_solver. Qed.

Section ConnectionFacts.

Variable remote : Remote.

Lemma dbusAuthConnection_opens_fresh (createBus : Dialer) :
  opens_fresh createBus -> opens_fresh (dbusAuthConnection remote createBus).
Proof.
  intros H n. specialize (H n). unfold dbusAuthConnection.
  destruct (createBus n) as [[conn|err] n1]; [|exact H].
  destruct H as [Hfresh Hopen].
  destruct (conn_Auth remote conn _); simpl.
  - rewrite Hopen. apply close_just_opened, Hfresh.
  - auto.
Qed.

Lemma dbusAuthHelloConnection_opens_fresh (createBus : Dialer) :
  opens_fresh createBus -> opens_fresh (dbusAuthHelloConnection remote createBus).
Proof.
  intros H n. pose proof (dbusAuthConnection_opens_fresh createBus H n) as Ha.
  unfold dbusAuthHelloConnection.
  destruct (dbusAuthConnection remote createBus n) as [[conn|err] n1]; [|exact Ha].
  destruct Ha as [Hfresh Hopen].
  destruct (conn_Hello remote conn); simpl.
  - rewrite Hopen. apply close_just_opened, Hfresh.
  - auto.
Qed.

(** X8.  The two authentication helpers leave no connection behind.  If
    [createBus] opens the connection it returns and nothing else, so do
    [dbusAuthConnection] and [dbusAuthHelloConnection]: when the
    authentication or the [Hello] fails, the connection that was opened is
    closed again, and the connections open are those open before. *)
Theorem auth_failure_closes_the_connection (createBus : Dialer) :
  opens_fresh createBus ->
  opens_fresh (dbusAuthConnection remote createBus) /\
  opens_fresh (dbusAuthHelloConnection remote createBus).
Proof.
  intros H. split.
  - apply dbusAuthConnection_opens_fresh, H.
  - apply dbusAuthHelloConnection_opens_fresh, H.
Qed.

Lemma NewConnection_connected (dialBus : Dialer) (chans : Store) (n : Net) :
  opens_fresh dialBus -> connected chans n (NewConnection dialBus chans n).
Proof.
  intros H. unfold NewConnection, connected.
  pose proof (H n) as H1.
  destruct (dialBus n) as [[c1|err] n1]; [|exact H1].
  destruct H1 as [Hf1 Ho1].
  pose proof (H n1) as H2.
  destruct (dialBus n1) as [[c2|err] n2]; simpl.
  - destruct H2 as [Hf2 Ho2]. rewrite Ho1 in Hf2.
    destruct (fresh_second _ _ _ Hf2) as [Hf2' Hne].
    repeat split; try assumption.
    rewrite Ho2, Ho1. apply open_two.
  - rewrite H2, Ho1. apply close_just_opened, Hf1.
Qed.

(** X9.  [NewConnection] dials twice and keeps both connections or none.
    With a dialer that opens the connection it returns: if either dial
    fails, the connections open afterwards are those open before; if both
    succeed, the new [Conn] holds two distinct new connections, method
    calls and signals each on its own, an empty job map and no
    subscriber.  When the first dial fails its error is returned and the
    second dial is not tried; when the second fails its error is returned
    and the first connection is closed. *)
Theorem NewConnection_keeps_both_or_none (dialBus : Dialer) (chans : Store) (n : Net) :
  opens_fresh dialBus ->
  connected chans n (NewConnection dialBus chans n) /\
  (forall err n1,
     dialBus n = (Failure err, n1) ->
     NewConnection dialBus chans n = (Failure err, n1)) /\
  (forall sysconn n1 err n2,
     dialBus n = (Success sysconn, n1) -> dialBus n1 = (Failure err, n2) ->
     NewConnection dialBus chans n = (Failure err, conn_Close sysconn n2) /\
     net_open (conn_Close sysconn n2) = net_open n).
Proof.
  intros H. split; [apply NewConnection_connected, H|]. split.
  - intros err n1 H1. unfold NewConnection. rewrite H1. reflexivity.
  - intros c1 n1 err n2 H1 H2.
    pose proof (NewConnection_connected dialBus chans n H) as Hc.
    unfold NewConnection in *. rewrite H1, H2 in *. split; [reflexivity|exact Hc].
Qed.

(** X10.  The three constructors, each with its own dialer of the dbus
    library, keep both connections or none: a failure of the dial, of the
    authentication or of the [Hello], on the first connection or on the
    second, leaves open exactly the connections that were open before. *)
Theorem constructors_keep_both_or_none (chans : Store) (n : Net) :
  opens_fresh (dbus_SystemBusPrivate remote) ->
  opens_fresh (dbus_SessionBusPrivate remote) ->
  opens_fresh (dbus_Dial remote "unix:path=/run/systemd/private") ->
  connected chans n (NewSystemConnection remote chans n) /\
  connected chans n (NewUserConnection remote chans n) /\
  connected chans n (NewSystemdConnection remote chans n).
Proof.
  intros Hsys Hses Hdial. repeat split.
  - apply NewConnection_connected, dbusAuthHelloConnection_opens_fresh, Hsys.
  - apply NewConnection_connected, dbusAuthHelloConnection_opens_fresh, Hses.
  - apply NewConnection_connected, dbusAuthConnection_opens_fresh, Hdial.
Qed.

(** X11.  [Close] undoes [NewConnection]: after a successful
    [NewConnection] followed by [Close] the connections open are those
    open before, and [Raw] is the connection for method calls, the first
    one dialled. *)
Theorem Close_undoes_NewConnection (dialBus : Dialer) (chans : Store) (n n' : Net)
    (c : Conn) :
  opens_fresh dialBus ->
  NewConnection dialBus chans n = (Success c, n') ->
  net_open (Close c n') = net_open n /\
  (Raw c ∉ net_open (Close c n')) /\
  exists n1, dialBus n = (Success (Raw c), n1).
Proof.
  intros H Hnew.
  pose proof (NewConnection_connected dialBus chans n H) as Hc.
  rewrite Hnew in Hc. destruct Hc as (Hf1 & Hf2 & Hne & Hopen & _).
  unfold Close, conn_Close, Raw. simpl. rewrite Hopen.
  rewrite (close_two _ _ _ Hf1 Hf2).
  split; [reflexivity|]. split; [exact Hf1|].
  revert Hnew. unfold NewConnection.
  destruct (dialBus n) as [[c1|err] n1]; [|discriminate].
  destruct (dialBus n1) as [[c2|err] n2]; [|discriminate].
  intros [= <- _]. simpl. eauto.
Qed.

Variable job_result : Signal -> string.

Lemma dispatch_iter_idle (bus : Bus) (w : World) (l : LoopVars) (signal : Signal) :
  jobs w = ∅ -> updateCh (subscriber w) = None ->
  dispatch_iter job_result bus w l signal = Ok (w, l).
Proof.
  intros Hj Hu. rewrite (dispatch_iter_unsubscribed _ _ _ _ _ Hu).
  unfold after_jobComplete, jobComplete. rewrite Hj, lookup_empty.
  destruct (String.eqb _ _); reflexivity.
Qed.

Lemma iterate_idle (pending : list (Bus * Signal)) (w : World) (l : LoopVars) :
  jobs w = ∅ -> updateCh (subscriber w) = None ->
  iterate job_result pending w l = Ok (w, l).
Proof.
  intros Hj Hu. induction pending as [|[bus signal] rest IH]; simpl.
  - reflexivity.
  - rewrite (dispatch_iter_idle bus w l signal Hj Hu). simpl. exact IH.
Qed.

(** X12.  The goroutine of a connection that has just been made, with no
    job watched and no subscriber set, handles any signals without a
    panic and without any effect: when the queue closes it returns with
    the [Conn] exactly as [NewConnection] built it. *)
Theorem new_connection_dispatch_is_idle (dialBus : Dialer) (chans : Store)
    (n n' : Net) (c : Conn) (pending : list (Bus * Signal)) :
  NewConnection dialBus chans n = (Success c, n') ->
  dispatch job_result (mkSignalQueue pending true) (shared c)
    = Returned (shared c) loop_start /\
  dispatch job_result (mkSignalQueue pending false) (shared c)
    = Parked (shared c) loop_start.
Proof.
  unfold NewConnection.
  destruct (dialBus n) as [[c1|err] n1]; [|discriminate].
  destruct (dialBus n1) as [[c2|err] n2]; [|discriminate].
  intros [= <- _]. simpl. unfold dispatch. simpl.
  rewrite !dispatch_loop_iterate, iterate_idle by reflexivity.
  split; reflexivity.
Qed.

(** X13.  [Unsubscribe] silences the loop whatever the bus answers: the
    subscriber is removed before [Manager.Unsubscribe] is called, so even
    when that call fails no later run panics or sends anything on the
    update, error or reload channel, although the reload channel is still
    in the slot.  The error returned is the one of the call, and no
    connection is opened or closed. *)
Theorem Unsubscribe_silences_the_loop (c : Conn) (n : Net)
    (pending : list (Bus * Signal)) (l : LoopVars) :
  let c' := fst (fst (Unsubscribe remote c n)) in
  let err := snd (fst (Unsubscribe remote c n)) in
  let n' := snd (Unsubscribe remote c n) in
  err = call_Store remote
          (mkMethodCall (sigobj c) "org.freedesktop.systemd1.Manager.Unsubscribe" 0 []) /\
  net_open n' = net_open n /\
  reloadCh (subscriber (shared c')) = reloadCh (subscriber (shared c)) /\
  exists w',
    iterate job_result pending (shared c') l = Ok (w', l) /\
    updateChans (store w') = updateChans (store (shared c)) /\
    errChans (store w') = errChans (store (shared c)) /\
    reloadChans (store w') = reloadChans (store (shared c)).
Proof.
  simpl. repeat split.
  destruct (iterate_unsubscribed job_result pending
              (RemoveSubStateSubscriber (shared c)) l eq_refl)
    as (w' & Hrun & _ & Hu & He & Hr).
  exists w'. auto.
Qed.

End ConnectionFacts.

(** * Properties of the subscriber mutex *)

Section MutexFacts.

Variable bus : Bus.
Variable path : ObjectPath.
Variables new_updateCh new_errCh new_reloadCh : option ref.

Lemma step_mutex_ok (old : Subscriber) (t : Tid) (c : Conc) :
  mutex_ok old new_updateCh new_errCh new_reloadCh c ->
  mutex_ok old new_updateCh new_errCh new_reloadCh
    (step bus path new_updateCh new_errCh new_reloadCh t c).
Proof.
  destruct c as [w locked pc spc].
  unfold mutex_ok, step, deliver_step, set_step. simpl.
  intros (Hex & -> & Hs).
  destruct pc, spc, t; simpl in *; try discriminate;
    repeat case_match; simpl; rewrite ?Hs; auto.
Qed.

Lemma exec_mutex_ok (old : Subscriber) (sched : list Tid) (c : Conc) :
  mutex_ok old new_updateCh new_errCh new_reloadCh c ->
  mutex_ok old new_updateCh new_errCh new_reloadCh
    (exec bus path new_updateCh new_errCh new_reloadCh sched c).
Proof.
  revert c. induction sched as [|t sched IH]; intros c H; simpl.
  - exact H.
  - apply IH, step_mutex_ok, H.
Qed.

Lemma exec_app (s1 s2 : list Tid) (c : Conc) :
  exec bus path new_updateCh new_errCh new_reloadCh (s1 ++ s2) c =
  exec bus path new_updateCh new_errCh new_reloadCh s2
    (exec bus path new_updateCh new_errCh new_reloadCh s1 c).
Proof.
  revert c. induction s1 as [|t s1 IH]; intros c; simpl; [reflexivity|apply IH].
Qed.

(** X14.  The subscriber mutex keeps the two goroutines apart.  From the
    moment both are about to lock, whatever the schedule: they are never
    both between their [Lock] and their [Unlock]; the mutex is taken
    exactly while one of them is; and the slot holds the old subscriber
    until [SetSubStateSubscriber] has locked, and the fields written so far
    after that. *)
Theorem subscriber_mutex_excludes (w : World) (sched : list Tid) :
  let c := exec bus path new_updateCh new_errCh new_reloadCh sched
             (mkConc w false D_Lock S_Lock) in
  deliver_holds (c_deliver c) && set_holds (c_set c) = false /\
  c_locked c = deliver_holds (c_deliver c) || set_holds (c_set c) /\
  subscriber (c_world c)
  = slot_at (subscriber w) new_updateCh new_errCh new_reloadCh (c_set c).
Proof.
  apply (exec_mutex_ok (subscriber w) sched (mkConc w false D_Lock S_Lock)).
  unfold mutex_ok. simpl. auto.
Qed.

Lemma setter_turns (old : Subscriber) (k : nat) (c : Conc) :
  mutex_ok old new_updateCh new_errCh new_reloadCh c ->
  let c' := exec bus path new_updateCh new_errCh new_reloadCh (repeat Setter k) c in
  c_deliver c' = c_deliver c /\
  (deliver_holds (c_deliver c) = false ->
   set_left (c_set c') = set_left (c_set c) - k).
Proof.
  revert c. induction k as [|k IH]; intros c Hok; simpl.
  - split; [reflexivity|]. intros _. lia.
  - destruct (IH _ (step_mutex_ok old Setter c Hok)) as [Hd Hs].
    assert (Hstep : c_deliver (step bus path new_updateCh new_errCh new_reloadCh Setter c)
                    = c_deliver c /\
                    (deliver_holds (c_deliver c) = false ->
                     set_left (c_set (step bus path new_updateCh new_errCh
                                        new_reloadCh Setter c))
                     = set_left (c_set c) - 1)).
    { destruct c as [w locked pc spc]. destruct Hok as (Hex & Hl & _).
      unfold step, set_step. simpl in *. subst locked.
      destruct pc, spc; simpl in *; try discriminate; split; auto; discriminate. }
    destruct Hstep as [Hd1 Hs1]. split; [congruence|].
    intros Hfree. rewrite Hs by congruence. rewrite Hs1 by exact Hfree. lia.
Qed.

Lemma deliverer_turns (old : Subscriber) (k : nat) (c : Conc) :
  mutex_ok old new_updateCh new_errCh new_reloadCh c ->
  let c' := exec bus path new_updateCh new_errCh new_reloadCh (repeat Deliverer k) c in
  c_set c' = c_set c /\
  (set_holds (c_set c) = false ->
   steps_left (c_deliver c') <= steps_left (c_deliver c) - k).
Proof.
  revert c. induction k as [|k IH]; intros c Hok; simpl.
  - split; [reflexivity|]. intros _. lia.
  - destruct (IH _ (step_mutex_ok old Deliverer c Hok)) as [Hd Hs].
    assert (Hstep : c_set (step bus path new_updateCh new_errCh new_reloadCh Deliverer c)
                    = c_set c /\
                    (set_holds (c_set c) = false ->
                     steps_left (c_deliver (step bus path new_updateCh new_errCh
                                              new_reloadCh Deliverer c))
                     <= steps_left (c_deliver c) - 1)).
    { destruct c as [w locked pc spc]. destruct Hok as (Hex & Hl & _).
      unfold step, deliver_step. simpl in *. subst locked.
      destruct pc, spc; simpl in *; try discriminate;
        repeat case_match; simpl; split; auto; try discriminate; try lia. }
    destruct Hstep as [Hd1 Hs1]. split; [congruence|].
    intros Hfree. rewrite Hd1 in Hs. specialize (Hs Hfree). specialize (Hs1 Hfree). lia.
Qed.

Lemma set_left_0 (pc : SetPc) : set_left pc = 0 -> pc = S_Done.
Proof. destruct pc; simpl; auto; discriminate. Qed.

(** X15.  The two goroutines cannot block each other for good.  From any
    state they can reach, five turns of [SetSubStateSubscriber], six of the
    delivery and five more of [SetSubStateSubscriber] bring both to their
    end unless the delivery panics: the mutex is free again and the slot
    holds exactly the new subscriber. *)
Theorem subscriber_mutex_is_released (w : World) (sched : list Tid) :
  let finish := repeat Setter 5 ++ repeat Deliverer 6 ++ repeat Setter 5 in
  let c := exec bus path new_updateCh new_errCh new_reloadCh (sched ++ finish)
             (mkConc w false D_Lock S_Lock) in
  c_deliver c = D_Crashed \/
  (c_deliver c = D_Done /\ c_set c = S_Done /\ c_locked c = false /\
   subscriber (c_world c) = mkSubscriber new_updateCh new_errCh new_reloadCh).
Proof.
  intros finish c. subst c finish. rewrite !exec_app.
  set (c0 := exec bus path new_updateCh new_errCh new_reloadCh sched
               (mkConc w false D_Lock S_Lock)).
  assert (H0 : mutex_ok (subscriber w) new_updateCh new_errCh new_reloadCh c0).
  { apply exec_mutex_ok. unfold mutex_ok. simpl. auto. }
  destruct (setter_turns _ 5 c0 H0) as [Hd1 Hs1].
  pose proof (exec_mutex_ok _ (repeat Setter 5) c0 H0) as H1.
  set (c1 := exec bus path new_updateCh new_errCh new_reloadCh (repeat Setter 5) c0) in *.
  assert (Hfree1 : set_holds (c_set c1) = false).
  { destruct (deliver_holds (c_deliver c0)) eqn:Hh.
    - destruct H1 as (Hex & _). rewrite Hd1, Hh in Hex. exact Hex.
    - specialize (Hs1 eq_refl).
      assert (Hz : set_left (c_set c1) = 0) by (destruct (c_set c0); simpl in *; lia).
      rewrite (set_left_0 _ Hz). reflexivity. }
  destruct (deliverer_turns _ 6 c1 H1) as [Hs2 Hd2].
  pose proof (exec_mutex_ok _ (repeat Deliverer 6) c1 H1) as H2.
  set (c2 := exec bus path new_updateCh new_errCh new_reloadCh (repeat Deliverer 6) c1) in *.
  specialize (Hd2 Hfree1).
  assert (Hz2 : steps_left (c_deliver c2) = 0)
    by (destruct (c_deliver c1); simpl in *; lia).
  destruct (setter_turns _ 5 c2 H2) as [Hd3 Hs3].
  pose proof (exec_mutex_ok _ (repeat Setter 5) c2 H2) as H3.
  set (c3 := exec bus path new_updateCh new_errCh new_reloadCh (repeat Setter 5) c2) in *.
  destruct (steps_left_0 _ Hz2) as [Hdone|Hcr]; [right|left; congruence].
  rewrite Hdone in Hs3. specialize (Hs3 eq_refl).
  assert (Hz3 : set_left (c_set c3) = 0) by (destruct (c_set c2); simpl in *; lia).
  apply set_left_0 in Hz3.
  destruct H3 as (_ & Hl & Hsub). rewrite Hd3, Hdone, Hz3 in *.
  simpl in *. auto.
Qed.

End MutexFacts.

(** * Match rules *)


(** * Instances *)

Lemma next_dial_opens_fresh : opens_fresh next_dial.
Proof. intros n. simpl. split; [apply is_fresh|reflexivity]. Qed.

Lemma other_signals_are_ignored_witness :
  dispatch_iter fourth_body_string unit_bus stalled_world (mkLoopVars true true)
    sig_UnitNew = Ok (stalled_world, mkLoopVars true true).
Proof.
  apply (other_signals_are_ignored fourth_body_string unit_bus stalled_world
           (mkLoopVars true true) sig_UnitNew); discriminate.
Defined.

Lemma undeliverable_reload_event_is_lost_witness :
  dispatch_iter fourth_body_string silent_bus deaf_world (mkLoopVars true true)
    (sig_Reloading false) = Ok (deaf_world, mkLoopVars false false) /\
  dispatch_iter fourth_body_string silent_bus subscribed_world (mkLoopVars false false)
    (sig_Reloading false) = Ok (subscribed_world, mkLoopVars false false).
Proof.
  apply (undeliverable_reload_event_is_lost fourth_body_string silent_bus silent_bus
           deaf_world subscribed_world (mkLoopVars true true) 0 0
           (sig_Reloading false) (sig_Reloading false)).
  - reflexivity.
  - vm_compute. reflexivity.
  - reflexivity.
  - split; reflexivity.
  - reflexivity.
  - split; reflexivity.
Defined.

Lemma reload_events_bounded_witness :
  let pending := [(silent_bus, sig_UnitFilesChanged); (silent_bus, sig_UnitFilesChanged);
                  (silent_bus, sig_Reloading false); (silent_bus, sig_Reloading false)] in
  exists c',
    reloadChans (store (sendSubStateReload subscribed_world)) !! 0 = Some c' /\
    length (received c')
    <= length (received (make_chan 1 : chan bool)) + Nat.b2n (unitFilesChanged loop_start)
       + how_many is_UnitFilesChanged_b pending /\
    length (received c')
    <= length (received (make_chan 1 : chan bool))
       + how_many is_Reloading_false_b pending.
Proof.
  apply (reload_events_bounded fourth_body_string
           [(silent_bus, sig_UnitFilesChanged); (silent_bus, sig_UnitFilesChanged);
            (silent_bus, sig_Reloading false); (silent_bus, sig_Reloading false)]
           subscribed_world (sendSubStateReload subscribed_world)
           loop_start loop_start 0 (make_chan 1)).
  - vm_compute. reflexivity.
  - reflexivity.
  - reflexivity.
Defined.

Lemma run_only_appends_witness :
  let w' := set_errChans stalled_world
              (<[0 := mkChan 2 [errors_New "update channel full";
                                errors_New "update channel full"] 0 []]> ∅) in
  subscriber w' = subscriber stalled_world /\
  store_grows (updateChans (store stalled_world)) (updateChans (store w')) /\
  store_grows (errChans (store stalled_world)) (errChans (store w')) /\
  store_grows (reloadChans (store stalled_world)) (reloadChans (store w')).
Proof.
  apply (run_only_appends fourth_body_string
           [(unit_bus, sig_PropertiesChanged); (unit_bus, sig_JobRemoved);
            (unit_bus, sig_PropertiesChanged)]
           stalled_world _ loop_start loop_start).
  vm_compute. reflexivity.
Defined.

Lemma unsubscribed_run_is_silent_witness :
  let pending :=
    [(broken_bus, sig_PropertiesChanged); (silent_bus, sig_UnitFilesChanged);
     (silent_bus, sig_Reloading false); (broken_bus, sig_JobRemoved)] in
  exists w',
    iterate fourth_body_string pending reload_only_world loop_start
      = Ok (w', loop_start) /\
    dispatch_loop fourth_body_string pending true reload_only_world loop_start
      = Returned w' loop_start /\
    subscriber w' = subscriber reload_only_world /\
    updateChans (store w') = updateChans (store reload_only_world) /\
    errChans (store w') = errChans (store reload_only_world) /\
    reloadChans (store w') = reloadChans (store reload_only_world).
Proof.
  apply (unsubscribed_run_is_silent fourth_body_string
           [(broken_bus, sig_PropertiesChanged); (silent_bus, sig_UnitFilesChanged);
            (silent_bus, sig_Reloading false); (broken_bus, sig_JobRemoved)]
           reload_only_world loop_start).
  reflexivity.
Defined.

Lemma auth_failure_closes_the_connection_witness :
  opens_fresh (dbusAuthConnection grumpy_remote next_dial) /\
  opens_fresh (dbusAuthHelloConnection grumpy_remote next_dial).
Proof.
  apply (auth_failure_closes_the_connection grumpy_remote next_dial).
  exact next_dial_opens_fresh.
Defined.

Lemma NewConnection_keeps_both_or_none_witness :
  let dialBus := dbusAuthHelloConnection grumpy_remote next_dial in
  let chans := store empty_world in
  connected chans no_net (NewConnection dialBus chans no_net) /\
  (forall err n1,
     dialBus no_net = (Failure err, n1) ->
     NewConnection dialBus chans no_net = (Failure err, n1)) /\
  (forall sysconn n1 err n2,
     dialBus no_net = (Success sysconn, n1) -> dialBus n1 = (Failure err, n2) ->
     NewConnection dialBus chans no_net = (Failure err, conn_Close sysconn n2) /\
     net_open (conn_Close sysconn n2) = net_open no_net).
Proof.
  apply (NewConnection_keeps_both_or_none
           (dbusAuthHelloConnection grumpy_remote next_dial) (store empty_world) no_net).
  apply dbusAuthHelloConnection_opens_fresh. exact next_dial_opens_fresh.
Defined.

Lemma constructors_keep_both_or_none_witness :
  connected (store empty_world) no_net
    (NewSystemConnection friendly_remote (store empty_world) no_net) /\
  connected (store empty_world) no_net
    (NewUserConnection friendly_remote (store empty_world) no_net) /\
  connected (store empty_world) no_net
    (NewSystemdConnection friendly_remote (store empty_world) no_net).
Proof.
  apply (constructors_keep_both_or_none friendly_remote (store empty_world) no_net);
    exact next_dial_opens_fresh.
Defined.

Lemma Close_undoes_NewConnection_witness :
  let out := NewConnection next_dial (store empty_world) no_net in
  let c := mkConn 0 (systemdObject 0) 1 (systemdObject 1) empty_world in
  net_open (Close c (snd out)) = net_open no_net /\
  (Raw c ∉ net_open (Close c (snd out))) /\
  exists n1, next_dial no_net = (Success (Raw c), n1).
Proof.
  apply (Close_undoes_NewConnection next_dial (store empty_world) no_net
           (snd (NewConnection next_dial (store empty_world) no_net))
           (mkConn 0 (systemdObject 0) 1 (systemdObject 1) empty_world)).
  - exact next_dial_opens_fresh.
  - vm_compute. reflexivity.
Defined.

Lemma new_connection_dispatch_is_idle_witness :
  let c := mkConn 0 (systemdObject 0) 1 (systemdObject 1) empty_world in
  let pending := [(unit_bus, sig_JobRemoved); (broken_bus, sig_PropertiesChanged)] in
  dispatch fourth_body_string (mkSignalQueue pending true) (shared c)
    = Returned (shared c) loop_start /\
  dispatch fourth_body_string (mkSignalQueue pending false) (shared c)
    = Parked (shared c) loop_start.
Proof.
  apply (new_connection_dispatch_is_idle fourth_body_string next_dial
           (store empty_world) no_net
           (snd (NewConnection next_dial (store empty_world) no_net))
           (mkConn 0 (systemdObject 0) 1 (systemdObject 1) empty_world)).
  vm_compute. reflexivity.
Defined.


Lemma sendSubStateUpdate_panics_on_ill_typed_map_witness :
  sendSubStateUpdate broken_bus subscribed_world unit_path = Panic.
Proof.
  apply (sendSubStateUpdate_panics_on_ill_typed_map broken_bus subscribed_world
           unit_path (<["Id" := VString "unit.service"]> ∅)).
  - reflexivity.
  - vm_compute. reflexivity.
Defined.

Lemma ill_typed_signal_panics_witness :
  dispatch_switch unit_bus subscribed_world loop_start sig_short_JobRemoved = Panic /\
  dispatch_iter fourth_body_string unit_bus subscribed_world loop_start
    sig_bare_PropertiesChanged = Panic /\
  dispatch_iter fourth_body_string broken_bus subscribed_world loop_start
    sig_PropertiesChanged = Panic.
Proof.
  split; [|split].
  - apply (proj1 (ill_typed_signal_panics fourth_body_string unit_bus subscribed_world
                    loop_start sig_short_JobRemoved 0 eq_refl)).
    + reflexivity.
    + reflexivity.
  - apply (proj2 (ill_typed_signal_panics fourth_body_string unit_bus subscribed_world
                    loop_start sig_bare_PropertiesChanged 0 eq_refl)).
    + discriminate.
    + vm_compute. reflexivity.
  - apply (proj2 (ill_typed_signal_panics fourth_body_string broken_bus subscribed_world
                    loop_start sig_PropertiesChanged 0 eq_refl)).
    + discriminate.
    + vm_compute. reflexivity.
Defined.
